(** * FormulaEvaluator: a shallow embedding of src/Engine/FormulaEvaluator.ts

    The evaluator reduces a tokenised spreadsheet formula with two stacks
    (operand values and pending operators).  The TypeScript class mutates two
    private fields and unwinds with exceptions; both effects are made explicit
    here with a small state-and-exception monad. *)

From Stdlib Require Import ZArith String Ascii List Bool Lia.
From Stdlib Require Import SpecFloat.
Import ListNotations.
Local Open Scope string_scope.
Local Open Scope list_scope.

(** ** The JavaScript runtime the source relies on

    A JavaScript [number] is an IEEE 754 binary64 value.  The standard
    library's [spec_float] is the specification of exactly that format once
    [prec = 53] and [emax = 1024]; all NaNs are identified, a difference the
    evaluator has no means to observe. *)
Module JS.
Local Open Scope Z_scope.

Definition number : Type := spec_float.

Definition prec : Z := 53.
Definition emax : Z := 1024.

Definition NaN : number := S754_nan.
Definition zero : number := S754_zero false.
Definition Infinity : number := S754_infinity false.

Definition add : number -> number -> number := SFadd prec emax.
Definition sub : number -> number -> number := SFsub prec emax.
Definition mul : number -> number -> number := SFmul prec emax.
Definition div : number -> number -> number := SFdiv prec emax.

(** [isNaN(x)] on a number. *)
Definition isNaN (x : number) : bool :=
  match x with
  | S754_nan => true
  | _ => false
  end.

(** [Number.isFinite(x)]: neither NaN nor an infinity. *)
Definition isFinite (x : number) : bool :=
  match x with
  | S754_nan | S754_infinity _ => false
  | _ => true
  end.

(** [x === y] on numbers: NaN differs from everything, the two zeros are
    equal. *)
Definition strictEq (x y : number) : bool := SFeqb x y.

(** ToBoolean on a number: [+0], [-0] and NaN are falsy. *)
Definition ToBoolean (x : number) : bool :=
  match x with
  | S754_zero _ | S754_nan => false
  | _ => true
  end.

(** A value read out of an array may be [undefined]; [None] stands for it.
    ToNumber(undefined) is NaN. *)
Definition ToNumber (o : option number) : number :=
  match o with
  | Some v => v
  | None => NaN
  end.

(** *** [Number(string)]: ECMAScript StringToNumber

    A string is read as a sequence of code units, each below 256.  The
    StrWhiteSpaceChar code units in that range are TAB, LF, VT, FF, CR, SP
    and NBSP. *)
Definition isStrWhiteSpaceChar (c : ascii) : bool :=
  let n := nat_of_ascii c in
  ((9 <=? n) && (n <=? 13) || (n =? 32) || (n =? 160))%nat.

Fixpoint dropWhile {A : Type} (p : A -> bool) (l : list A) : list A :=
  match l with
  | [] => []
  | x :: l' => if p x then dropWhile p l' else l
  end.

Fixpoint takeWhile {A : Type} (p : A -> bool) (l : list A) : list A :=
  match l with
  | [] => []
  | x :: l' => if p x then x :: takeWhile p l' else []
  end.

Definition trim (l : list ascii) : list ascii :=
  rev (dropWhile isStrWhiteSpaceChar (rev (dropWhile isStrWhiteSpaceChar l))).

(** The value of a digit in a radix up to 16, [None] for any other code
    unit. *)
Definition digitValue (radix : Z) (c : ascii) : option Z :=
  let n := Z.of_nat (nat_of_ascii c) in
  let v :=
    if (48 <=? n) && (n <=? 57) then n - 48
    else if (97 <=? n) && (n <=? 102) then n - 87
    else if (65 <=? n) && (n <=? 70) then n - 55
    else 16 in
  if v <? radix then Some v else None.

Definition isDigit (radix : Z) (c : ascii) : bool :=
  match digitValue radix c with
  | Some _ => true
  | None => false
  end.

(** Mathematical value of a digit string, most significant digit first. *)
Definition digitsValue (radix : Z) (l : list ascii) : Z :=
  fold_left
    (fun acc c => acc * radix + match digitValue radix c with
                                | Some v => v
                                | None => 0
                                end)
    l 0.

(** Round [m * 10 ^ e10] to the nearest binary64 value, ties to even, on
    all the digits of the literal as the engines do.  For a negative exponent
    the quotient is computed with more than 64 significant bits and the
    remainder is kept as a sticky bit, which leaves the rounding decision
    unchanged. *)
Definition roundDecimal (sign : bool) (m e10 : Z) : number :=
  if m =? 0 then S754_zero sign
  else if 0 <=? e10 then
    binary_normalize prec emax (cond_Zopp sign (m * 10 ^ e10)) 0 sign
  else
    let d := 10 ^ (- e10) in
    let s := Z.max 0 (Z.log2 d + 66 - Z.log2 m) in
    let n := m * 2 ^ s in
    let q := n / d in
    let sticky := if n mod d =? 0 then 0 else 1 in
    binary_normalize prec emax (cond_Zopp sign (2 * q + sticky)) (- s - 1) sign.

(** ExponentPart (optional): [e] or [E], an optional sign, one digit at
    least, and nothing after it. *)
Definition parseExponent (l : list ascii) : option Z :=
  match l with
  | [] => Some 0
  | c :: l1 =>
      if (Ascii.eqb c "e" || Ascii.eqb c "E")%char then
        let '(neg, l2) :=
          match l1 with
          | s :: l2' =>
              if Ascii.eqb s "-"%char then (true, l2')
              else if Ascii.eqb s "+"%char then (false, l2')
              else (false, l1)
          | [] => (false, l1)
          end in
        match l2 with
        | [] => None
        | _ :: _ =>
            if forallb (isDigit 10) l2
            then Some (cond_Zopp neg (digitsValue 10 l2))
            else None
        end
      else None
  end.

(** StrUnsignedDecimalLiteral. *)
Definition parseUnsignedDecimal (sign : bool) (l : list ascii) : number :=
  if String.eqb (string_of_list_ascii l) "Infinity"
  then S754_infinity sign
  else
    let int := takeWhile (isDigit 10) l in
    let l1 := dropWhile (isDigit 10) l in
    let '(frac, l2) :=
      match l1 with
      | c :: l1' =>
          if Ascii.eqb c "."%char
          then (takeWhile (isDigit 10) l1', dropWhile (isDigit 10) l1')
          else ([], l1)
      | [] => ([], l1)
      end in
    match (int ++ frac)%list with
    | [] => NaN
    | digits =>
        match parseExponent l2 with
        | Some e =>
            roundDecimal sign (digitsValue 10 digits) (e - Z.of_nat (length frac))
        | None => NaN
        end
    end.

(** NonDecimalIntegerLiteral: the digits after a [0x], [0o] or [0b] prefix. *)
Definition parseRadix (radix : Z) (l : list ascii) : number :=
  match l with
  | [] => NaN
  | _ :: _ =>
      if forallb (isDigit radix) l
      then binary_normalize prec emax (digitsValue radix l) 0 false
      else NaN
  end.

Definition radixOfPrefix (c : ascii) : option Z :=
  if (Ascii.eqb c "x" || Ascii.eqb c "X")%char then Some 16
  else if (Ascii.eqb c "o" || Ascii.eqb c "O")%char then Some 8
  else if (Ascii.eqb c "b" || Ascii.eqb c "B")%char then Some 2
  else None.

Definition StringToNumber (l : list ascii) : number :=
  match trim l with
  | [] => zero
  | (c :: l1) as t =>
      let nonDecimal :=
        if Ascii.eqb c "0"%char then
          match l1 with
          | p :: l2 =>
              match radixOfPrefix p with
              | Some radix => Some (parseRadix radix l2)
              | None => None
              end
          | [] => None
          end
        else None in
      match nonDecimal with
      | Some v => v
      | None =>
          if Ascii.eqb c "-"%char then parseUnsignedDecimal true l1
          else if Ascii.eqb c "+"%char then parseUnsignedDecimal false l1
          else parseUnsignedDecimal false t
      end
  end.

Definition Number (s : string) : number :=
  StringToNumber (list_ascii_of_string s).

(** A small natural number as a JavaScript number, for stating results. *)
Definition ofZ (z : Z) : number := binary_normalize prec emax z 0 false.

End JS.

Import JS.

(** ** Collaborators imported by the source

    [Cell], [SheetMemory] and [ErrorMessages] are imported from sibling
    modules; the evaluator only reads them. *)

(** What the evaluator reads from a cell: [getFormula()], [getError()] and
    [getValue()]. *)
Record Cell : Type := {
  getFormula : list string;
  getError : string;
  getValue : number
}.

(** The result of a call that may throw.  The message of a thrown [Error]
    is kept although no handler reads it. *)
Inductive outcome (A : Type) : Type :=
  | Return (a : A)
  | Throw (msg : string).
Arguments Return {A} a.
Arguments Throw {A} msg.

(** [SheetMemory.getCellByLabel(label)]; a lookup that fails is a lookup
    that throws. *)
Record SheetMemory : Type := {
  getCellByLabel : string -> outcome Cell
}.

(** The members of [ErrorMessages] the evaluator mentions. *)
Record ErrorMessagesT : Type := {
  emptyFormula : string;
  invalidFormula : string;
  invalidOperator : string;
  divideByZero : string;
  invalidCell : string
}.

(** The fields of a [FormulaEvaluator] instance. *)
Record FormulaEvaluator : Type := {
  _sheetMemory : SheetMemory;
  _errorMessage : string;
  _result : number
}.

(** [constructor(memory)], with the field initialisers. *)
Definition constructor (memory : SheetMemory) : FormulaEvaluator :=
  {| _sheetMemory := memory; _errorMessage := ""; _result := zero |}.

(** The accessors [get error()] and [get result()]. *)
Definition error (this : FormulaEvaluator) : string := _errorMessage this.
Definition result (this : FormulaEvaluator) : number := _result this.

(** ** Methods as computations over the instance

    A method body is a function from the instance before the call to an
    outcome and the instance after it: a field written before a [throw]
    stays written. *)
Definition M (A : Type) : Type := FormulaEvaluator -> outcome A * FormulaEvaluator.

Definition ret {A : Type} (a : A) : M A := fun this => (Return a, this).

Definition bind {A B : Type} (c : M A) (k : A -> M B) : M B :=
  fun this =>
    match c this with
    | (Return a, this') => k a this'
    | (Throw msg, this') => (Throw msg, this')
    end.

Definition throw {A : Type} (msg : string) : M A := fun this => (Throw msg, this).

(** [try { body } catch (error) { handler }] *)
Definition try_catch {A : Type} (body : M A) (handler : string -> M A) : M A :=
  fun this =>
    match body this with
    | (Return a, this') => (Return a, this')
    | (Throw msg, this') => handler msg this'
    end.

Definition set_errorMessage (e : string) : M unit :=
  fun this =>
    (Return tt, {| _sheetMemory := _sheetMemory this;
                   _errorMessage := e;
                   _result := _result this |}).

Definition set_result (r : number) : M unit :=
  fun this =>
    (Return tt, {| _sheetMemory := _sheetMemory this;
                   _errorMessage := _errorMessage this;
                   _result := r |}).

Definition callSheetMemory (label : string) : M Cell :=
  fun this => (getCellByLabel (_sheetMemory this) label, this).

Declare Scope eval_scope.
Delimit Scope eval_scope with eval.
Notation "x <- c ;; k" := (bind c (fun x => k))
  (at level 61, c at next level, right associativity) : eval_scope.
Notation "' p <- c ;; k" := (bind c (fun x => let 'p := x in k))
  (at level 61, p pattern, c at next level, right associativity) : eval_scope.
Notation "c ;; k" := (bind c (fun _ => k))
  (at level 61, right associativity) : eval_scope.
Local Open Scope eval_scope.

(** ** Arrays used as stacks

    [values] and [operators] are JavaScript arrays used only through [push],
    [pop], [length] and a read of the last element.  A list whose head is the
    last element of the array models them: [push] is [cons]. *)
Definition pop {A : Type} (stack : list A) : option A * list A :=
  match stack with
  | [] => (None, [])
  | x :: stack' => (Some x, stack')
  end.

(** [operand === 0] for an operand that may be [undefined]. *)
Definition strictEqZero (operand : option number) : bool :=
  match operand with
  | Some v => strictEq v zero
  | None => false
  end.

(** [values.pop() || 0] *)
Definition orZero (o : option number) : number :=
  match o with
  | Some v => if ToBoolean v then v else zero
  | None => zero
  end.

(** A JavaScript string is truthy when it is not empty. *)
Definition truthy (s : string) : bool := negb (String.eqb s "").

Section Evaluator.

Variable ErrorMessages : ErrorMessagesT.

(** [Cell.isValidCellLabel], a static predicate on token text. *)
Variable isValidCellLabel : string -> bool.

Definition isNumber (token : string) : bool := negb (isNaN (Number token)).

Definition isCellReference (token : string) : bool := isValidCellLabel token.

Definition isOperator (token : string) : bool :=
  existsb (String.eqb token) ["+"; "-"; "*"; "/"].

Definition getOperatorPrecedence (operator : string) : nat :=
  if String.eqb operator "+" then 1
  else if String.eqb operator "-" then 1
  else if String.eqb operator "*" then 2
  else if String.eqb operator "/" then 2
  else 0.

Definition getCellValue (token : string) : M (number * string) :=
  cell <- callSheetMemory token ;;
  let formula := getFormula cell in
  let error := getError cell in
  if truthy error && negb (String.eqb error (emptyFormula ErrorMessages))
  then ret (zero, error)
  else if (length formula =? 0)%nat
  then ret (zero, invalidCell ErrorMessages)
  else ret (getValue cell, "").

(** [applyOperator] pops its two operands from the caller's array and pushes
    the result; the array after the call is the value returned.  When the
    method throws, the caller unwinds and never reads the array again. *)
Definition applyOperator (operator : string) (values : list number)
  : M (list number) :=
  let '(operand2, values) := pop values in
  let '(operand1, values) := pop values in
  result <-
    (if String.eqb operator "+" then
       ret (add (ToNumber operand1) (ToNumber operand2))
     else if String.eqb operator "-" then
       ret (sub (ToNumber operand1) (ToNumber operand2))
     else if String.eqb operator "*" then
       ret (mul (ToNumber operand1) (ToNumber operand2))
     else if String.eqb operator "/" then
       if strictEqZero operand2 then
         set_errorMessage (divideByZero ErrorMessages) ;;
         throw "Division by zero"
       else ret (div (ToNumber operand1) (ToNumber operand2))
     else
       set_errorMessage (invalidOperator ErrorMessages) ;;
       throw "Invalid operator") ;;
  ret (result :: values).

(** The loop of the [")"] branch:
    [while (operators.length > 0 && top !== "(") applyOperator(operators.pop(), values)].
    Each round pops one operator, so the recursion is on the stack. *)
Fixpoint closeParenLoop (operators : list string) (values : list number)
  : M (list string * list number) :=
  match operators with
  | [] => ret (operators, values)
  | top :: operators' =>
      if negb (String.eqb top "(") then
        values' <- applyOperator top values ;;
        closeParenLoop operators' values'
      else ret (operators, values)
  end.

(** The loop of the operator branch:
    [while (operators.length > 0 && precedence(token) <= precedence(top))]. *)
Fixpoint precedenceLoop (token : string) (operators : list string)
    (values : list number) : M (list string * list number) :=
  match operators with
  | [] => ret (operators, values)
  | top :: operators' =>
      if (getOperatorPrecedence token <=? getOperatorPrecedence top)%nat then
        values' <- applyOperator top values ;;
        precedenceLoop token operators' values'
      else ret (operators, values)
  end.

(** The loop after the scan:
    [while (operators.length > 0) applyOperator(operators.pop(), values)]. *)
Fixpoint finalLoop (operators : list string) (values : list number)
  : M (list number) :=
  match operators with
  | [] => ret values
  | top :: operators' =>
      values' <- applyOperator top values ;;
      finalLoop operators' values'
  end.

(** One round of the [for] loop: the stacks after the token. *)
Definition scanToken (token : string) (stacks : list number * list string)
  : M (list number * list string) :=
  let '(values, operators) := stacks in
  if isNumber token then
    ret (Number token :: values, operators)
  else if isCellReference token then
    '(value, error) <- getCellValue token ;;
    if truthy error then
      set_errorMessage error ;;
      throw "Invalid cell reference"
    else ret (value :: values, operators)
  else if String.eqb token "(" then
    ret (values, token :: operators)
  else if String.eqb token ")" then
    '(operators', values') <- closeParenLoop operators values ;;
    ret (values', snd (pop operators'))
  else if isOperator token then
    '(operators', values') <- precedenceLoop token operators values ;;
    ret (values', token :: operators')
  else ret (values, operators).

(** The [for] loop over the tokens. *)
Fixpoint scanTokens (tokens : list string) (stacks : list number * list string)
  : M (list number * list string) :=
  match tokens with
  | [] => ret stacks
  | token :: tokens' =>
      stacks' <- scanToken token stacks ;;
      scanTokens tokens' stacks'
  end.

(** The scan followed by the final reduction: the [values] array on which
    the length test of [evaluateExpression] is made. *)
Definition reduceTokens (tokens : list string) : M (list number) :=
  '(values, operators) <- scanTokens tokens ([], []) ;;
  finalLoop operators values.

Definition evaluateExpression (tokens : list string) : M number :=
  values <- reduceTokens tokens ;;
  if negb (length values =? 1)%nat then
    set_errorMessage (invalidFormula ErrorMessages) ;;
    throw "Invalid formula"
  else ret (orZero (fst (pop values))).

Definition evaluate (formula : list string) : M unit :=
  set_errorMessage "" ;;
  set_result zero ;;
  if (length formula =? 0)%nat then
    set_errorMessage (emptyFormula ErrorMessages)
  else
    try_catch
      (result <- evaluateExpression formula ;;
       set_result result)
      (fun _ => set_errorMessage (invalidFormula ErrorMessages)).

(** The instance after a call of [evaluate]. *)
Definition after_evaluate (formula : list string) (this : FormulaEvaluator)
  : FormulaEvaluator :=
  snd (evaluate formula this).

End Evaluator.

(** ** A concrete environment

    Modelled from the spec: [GlobalDefinitions.ts] is not among the sources.
    The specification lists the error kinds EmptyFormula, InvalidFormula,
    InvalidOperator, DivideByZero and InvalidCell as distinct kinds without
    giving their text; each kind is represented by its name. *)
Definition specErrorMessages : ErrorMessagesT :=
  {| emptyFormula := "EmptyFormula";
     invalidFormula := "InvalidFormula";
     invalidOperator := "InvalidOperator";
     divideByZero := "DivideByZero";
     invalidCell := "InvalidCell" |}.

(** Modelled from the spec: [Cell.ts] is not among the sources.  The
    specification describes a valid label as a column letter followed by a
    row number: one capital letter, then a decimal number without a leading
    zero. *)
Definition specIsValidCellLabel (token : string) : bool :=
  match list_ascii_of_string token with
  | col :: d :: ds =>
      let c := nat_of_ascii col in
      let n := nat_of_ascii d in
      ((65 <=? c) && (c <=? 90) && (49 <=? n) && (n <=? 57))%nat
      && forallb (isDigit 10) ds
  | _ => false
  end.

(** A sheet for the examples: [A1] holds 7, [A2] holds a stored error,
    [A3] has an empty formula, and looking up any other label throws. *)
Definition exampleMemory : SheetMemory :=
  {| getCellByLabel := fun label =>
       if String.eqb label "A1" then
         Return {| getFormula := ["7"]; getError := ""; getValue := ofZ 7 |}
       else if String.eqb label "A2" then
         Return {| getFormula := ["1"; "/"; "0"];
                   getError := "DivideByZero";
                   getValue := zero |}
       else if String.eqb label "A3" then
         Return {| getFormula := []; getError := "EmptyFormula"; getValue := zero |}
       else Throw "no such cell" |}.

(** ** Well-formed arithmetic formulas

    The usual unambiguous grammar of infix arithmetic: an expression is a
    chain of terms joined by [+] and [-], a term a chain of factors joined by
    [*] and [/], a factor a number literal or an expression in parentheses.
    The shape of a tree is the standard reading of its token sequence:
    multiplicative operators bind tighter, chains associate to the left,
    parentheses override both. *)
Inductive addop : Type := Plus | Minus.
Inductive mulop : Type := Times | Divide.

Inductive expr : Type :=
  | ETerm (t : term)
  | EBin (e : expr) (o : addop) (t : term)
with term : Type :=
  | TFactor (f : factor)
  | TBin (t : term) (o : mulop) (f : factor)
with factor : Type :=
  | FNum (token : string)
  | FParen (e : expr).

Scheme expr_term_factor := Induction for expr Sort Prop
  with term_factor_expr := Induction for term Sort Prop
  with factor_expr_term := Induction for factor Sort Prop.
Combined Scheme formula_ind
  from expr_term_factor, term_factor_expr, factor_expr_term.

Definition addToken (o : addop) : string :=
  match o with Plus => "+" | Minus => "-" end.

Definition mulToken (o : mulop) : string :=
  match o with Times => "*" | Divide => "/" end.

(** The token sequence of a tree. *)
Fixpoint tokensE (e : expr) : list string :=
  match e with
  | ETerm t => tokensT t
  | EBin e' o t => tokensE e' ++ addToken o :: tokensT t
  end
with tokensT (t : term) : list string :=
  match t with
  | TFactor f => tokensF f
  | TBin t' o f => tokensT t' ++ mulToken o :: tokensF f
  end
with tokensF (f : factor) : list string :=
  match f with
  | FNum token => [token]
  | FParen e => "(" :: tokensE e ++ [")"]
  end.

Definition applyAdd (o : addop) (a b : number) : number :=
  match o with Plus => add a b | Minus => sub a b end.

(** A quotient is undefined when the divisor is zero. *)
Definition applyMul (o : mulop) (a b : number) : option number :=
  match o with
  | Times => Some (mul a b)
  | Divide => if strictEq b zero then None else Some (div a b)
  end.

(** Standard infix evaluation, by recursion on the tree, in JavaScript
    arithmetic. *)
Fixpoint evalE (e : expr) : option number :=
  match e with
  | ETerm t => evalT t
  | EBin e' o t =>
      match evalE e', evalT t with
      | Some a, Some b => Some (applyAdd o a b)
      | _, _ => None
      end
  end
with evalT (t : term) : option number :=
  match t with
  | TFactor f => evalF f
  | TBin t' o f =>
      match evalT t', evalF f with
      | Some a, Some b => applyMul o a b
      | _, _ => None
      end
  end
with evalF (f : factor) : option number :=
  match f with
  | FNum token => Some (Number token)
  | FParen e => evalE e
  end.

(** Every leaf is a token the number classifier accepts. *)
Fixpoint literalsE (e : expr) : bool :=
  match e with
  | ETerm t => literalsT t
  | EBin e' _ t => literalsE e' && literalsT t
  end
with literalsT (t : term) : bool :=
  match t with
  | TFactor f => literalsF f
  | TBin t' _ f => literalsT t' && literalsF f
  end
with literalsF (f : factor) : bool :=
  match f with
  | FNum token => isNumber token
  | FParen e => literalsE e
  end.

(** The tokenizer classifies unambiguously: no parenthesis or operator is a
    cell label. *)
Definition symbolsAreNotLabels (isValidCellLabel : string -> bool) : Prop :=
  forallb (fun s => negb (isValidCellLabel s)) ["("; ")"; "+"; "-"; "*"; "/"]
  = true.

(** A token that falls through every branch of the scan. *)
Definition unrecognized (isValidCellLabel : string -> bool) (token : string)
  : bool :=
  negb (isNumber token) && negb (isCellReference isValidCellLabel token)
  && negb (String.eqb token "(") && negb (String.eqb token ")")
  && negb (isOperator token).

(** The trees of the three formulas the specification names. *)
Definition lit (token : string) : term := TFactor (FNum token).

Definition formula_2_plus_3_times_4 : expr :=
  EBin (ETerm (lit "2")) Plus (TBin (lit "3") Times (FNum "4")).

Definition formula_paren_2_plus_3_times_4 : expr :=
  ETerm (TBin (TFactor (FParen (EBin (ETerm (lit "2")) Plus (lit "3"))))
              Times (FNum "4")).

Definition formula_8_minus_3_minus_2 : expr :=
  EBin (EBin (ETerm (lit "8")) Minus (lit "3")) Minus (lit "2").

(** Two formulas on which the result is not the standard value. *)
Definition formula_5_div_0 : expr :=
  ETerm (TBin (lit "5") Divide (FNum "0")).

Definition formula_Infinity_minus_Infinity : expr :=
  EBin (ETerm (lit "Infinity")) Minus (lit "Infinity").

(** The fresh instance [evaluate] works on once it has reset both fields. *)
Definition reset (this : FormulaEvaluator) : FormulaEvaluator :=
  constructor (_sheetMemory this).

(** The pair of accessors after a call on a fresh evaluator over the example
    sheet. *)
Definition run (formula : list string) : string * number :=
  let this := after_evaluate specErrorMessages specIsValidCellLabel formula
                (constructor exampleMemory) in
  (error this, result this).

(** A computation that leaves the instance alone when it returns, and
    touches nothing but the error message when it throws. *)
Definition quiet {A : Type} (c : M A) : Prop :=
  forall this,
    match c this with
    | (Return _, this') => this' = this
    | (Throw _, this') =>
        _sheetMemory this' = _sheetMemory this /\ _result this' = _result this
    end.

(** The top of the pending-operator stack binds less tightly than [p]. *)
Definition topBelow (p : nat) (operators : list string) : bool :=
  match operators with
  | [] => true
  | top :: _ => (getOperatorPrecedence top <? p)%nat
  end.

(** Operators [po] of precedence [p] at least are pending over the operands
    [pv]: applying them, top first, leaves the single value [a] in place of
    [pv] and raises nothing. *)
Definition pending (ErrorMessages : ErrorMessagesT) (p : nat)
    (po : list string) (pv : list number) (a : number) : Prop :=
  forallb (fun top => (p <=? getOperatorPrecedence top)%nat) po = true /\
  forall (vs : list number) (this : FormulaEvaluator),
    finalLoop ErrorMessages po (pv ++ vs) this = (Return (a :: vs), this).

(** The instance left behind by the zero-divisor branch of [applyOperator]. *)
Definition divisionByZero (ErrorMessages : ErrorMessagesT)
    (this : FormulaEvaluator) : outcome (list number) * FormulaEvaluator :=
  (Throw "Division by zero",
   {| _sheetMemory := _sheetMemory this;
      _errorMessage := divideByZero ErrorMessages;
      _result := _result this |}).

(** Operators [po] of precedence [p] at least are pending over the operands
    [pv], and applying them runs into a division by a zero. *)
Definition doomed (ErrorMessages : ErrorMessagesT) (p : nat)
    (po : list string) (pv : list number) : Prop :=
  forallb (fun top => (p <=? getOperatorPrecedence top)%nat) po = true /\
  forall (vs : list number) (this : FormulaEvaluator),
    finalLoop ErrorMessages po (pv ++ vs) this
    = divisionByZero ErrorMessages this.

(** The scan of [tokens] from [stacks] stops on a division by a zero. *)
Definition scanDividesByZero (ErrorMessages : ErrorMessagesT)
    (isValidCellLabel : string -> bool) (tokens : list string)
    (stacks : list number * list string) (this : FormulaEvaluator) : Prop :=
  scanTokens ErrorMessages isValidCellLabel tokens stacks this
  = (Throw "Division by zero",
     {| _sheetMemory := _sheetMemory this;
        _errorMessage := divideByZero ErrorMessages;
        _result := _result this |}).

(** ** The document name in the URL (App.tsx)

    [getDocumentNameFromWindow] and [resetURL] are two functions local to the
    [App] component.  They work on [window.location.href] with [indexOf],
    [lastIndexOf] and [substring]; a string is a list of code units and an
    index an integer. *)
Module JSString.
Local Open Scope Z_scope.

Fixpoint startsWith (search s : list ascii) : bool :=
  match search, s with
  | [], _ => true
  | _ :: _, [] => false
  | c :: search', d :: s' => Ascii.eqb c d && startsWith search' s'
  end.

(** The first index at which [search] occurs in [s], the first code unit of
    [s] having index [k]; -1 when there is none. *)
Fixpoint indexOfFrom (search s : list ascii) (k : Z) : Z :=
  if startsWith search s then k
  else
    match s with
    | [] => -1
    | _ :: s' => indexOfFrom search s' (k + 1)
    end.

(** An index argument is clamped to the bounds of the string. *)
Definition clamp (n len : Z) : Z := Z.min (Z.max n 0) len.

(** [s.indexOf(search, position)] *)
Definition indexOf (s search : list ascii) (position : Z) : Z :=
  let start := clamp position (Z.of_nat (length s)) in
  indexOfFrom search (skipn (Z.to_nat start) s) start.

(** The last index at which [search] occurs in [s], or [found] when there is
    none. *)
Fixpoint lastIndexOfFrom (search s : list ascii) (k found : Z) : Z :=
  let found' := if startsWith search s then k else found in
  match s with
  | [] => found'
  | _ :: s' => lastIndexOfFrom search s' (k + 1) found'
  end.

(** [s.lastIndexOf(search)] *)
Definition lastIndexOf (s search : list ascii) : Z :=
  lastIndexOfFrom search s 0 (-1).

(** [s.substring(start, end)]: both indices are clamped, and swapped when
    the first is the larger. *)
Definition substring (s : list ascii) (start end_ : Z) : list ascii :=
  let len := Z.of_nat (length s) in
  let from := Z.min (clamp start len) (clamp end_ len) in
  let to := Z.max (clamp start len) (clamp end_ len) in
  firstn (Z.to_nat (to - from)) (skipn (Z.to_nat from) s).

(** [s.substring(start)] *)
Definition substringFrom (s : list ascii) (start : Z) : list ascii :=
  substring s start (Z.of_nat (length s)).

End JSString.

Definition slash : ascii := "/"%char.

(** [getDocumentNameFromWindow()], as a function of [window.location.href];
    the calls of [console.log] are left out. *)
Definition getDocumentNameFromWindow (href : list ascii) : list ascii :=
  let protoEnd := JSString.indexOf href [slash; slash] 0 in
  let pathStart := JSString.indexOf href [slash] (protoEnd + 2) in
  if (pathStart <? 0)%Z then []
  else
    let docEnd := JSString.indexOf href [slash] (pathStart + 1) in
    if (docEnd <? 0)%Z then JSString.substringFrom href (pathStart + 1)
    else JSString.substring href (pathStart + 1) docEnd.

(** [resetURL(documentName)], as a function of [window.location.href]: the
    value is [newURL], the URL the function hands to
    [window.history.pushState] before it reloads the page. *)
Definition resetURL (currentURL documentName : list ascii) : list ascii :=
  let index := JSString.lastIndexOf currentURL [slash] in
  JSString.substring currentURL 0 (index + 1) ++ documentName.

(** ** Vocabulary for the further properties *)

(** The referenced cell passes both tests of [getCellValue]: it holds no
    stored error other than the empty-formula one, and its formula has a
    token. *)
Definition healthy (ErrorMessages : ErrorMessagesT) (cell : Cell) : bool :=
  negb (truthy (getError cell)
        && negb (String.eqb (getError cell) (emptyFormula ErrorMessages)))
  && negb (length (getFormula cell) =? 0)%nat.

(** Token [t'] stands for token [t]: the same token, or a number literal
    whose value is the cached value of the healthy cell that [t] refers
    to. *)
Definition sameOperand (ErrorMessages : ErrorMessagesT)
    (isValidCellLabel : string -> bool) (memory : SheetMemory)
    (t t' : string) : Prop :=
  t = t' \/
  (isNumber t = false /\
   isCellReference isValidCellLabel t = true /\
   isNumber t' = true /\
   exists cell,
     getCellByLabel memory t = Return cell /\
     healthy ErrorMessages cell = true /\
     getValue cell = Number t').

(** What the scan may push on [operators]. *)
Definition stackSymbol (s : string) : bool :=
  String.eqb s "(" || isOperator s.

(** * Properties *)

(** ** Outcomes of [evaluate] *)

Section EvaluatorFacts.

Variable ErrorMessages : ErrorMessagesT.
Variable isValidCellLabel : string -> bool.

Local Abbreviation evaluateExpression := (evaluateExpression ErrorMessages isValidCellLabel).
Local Abbreviation evaluate := (evaluate ErrorMessages isValidCellLabel).
Local Abbreviation after_evaluate := (after_evaluate ErrorMessages isValidCellLabel).
Local Abbreviation reduceTokens := (reduceTokens ErrorMessages isValidCellLabel).
Local Abbreviation scanTokens := (scanTokens ErrorMessages isValidCellLabel).
Local Abbreviation scanToken := (scanToken ErrorMessages isValidCellLabel).
Local Abbreviation applyOperator := (applyOperator ErrorMessages).
Local Abbreviation finalLoop := (finalLoop ErrorMessages).
Local Abbreviation closeParenLoop := (closeParenLoop ErrorMessages).
Local Abbreviation precedenceLoop := (precedenceLoop ErrorMessages).
Local Abbreviation getCellValue := (getCellValue ErrorMessages).
Local Abbreviation pending := (pending ErrorMessages).
Local Abbreviation healthy := (healthy ErrorMessages).
Local Abbreviation sameOperand := (sameOperand ErrorMessages isValidCellLabel).
Local Abbreviation doomed := (doomed ErrorMessages).
Local Abbreviation divisionByZero := (divisionByZero ErrorMessages).
Local Abbreviation scanDividesByZero := (scanDividesByZero ErrorMessages isValidCellLabel).

Lemma quiet_ret {A : Type} (a : A) : quiet (ret a).
Proof. intros this. reflexivity. Qed.

Lemma quiet_fail {A : Type} (e msg : string) :
  quiet (set_errorMessage e ;; @throw A msg).
Proof. intros this. cbn. split; reflexivity. Qed.

Lemma quiet_bind {A B : Type} (c : M A) (k : A -> M B) :
  quiet c -> (forall a, quiet (k a)) -> quiet (bind c k).
Proof.
  intros Hc Hk this. unfold bind.
  specialize (Hc this). destruct (c this) as [[a | msg] this1].
  - subst this1. apply Hk.
  - exact Hc.
Qed.

Lemma quiet_callSheetMemory (label : string) : quiet (callSheetMemory label).
Proof.
  intros this. unfold callSheetMemory.
  destruct (getCellByLabel (_sheetMemory this) label); [reflexivity | split; reflexivity].
Qed.

Lemma quiet_getCellValue (token : string) : quiet (getCellValue token).
Proof.
  unfold getCellValue. apply quiet_bind.
  - apply quiet_callSheetMemory.
  - intros cell.
    destruct (truthy (getError cell) && _); [apply quiet_ret |].
    destruct (length (getFormula cell) =? 0)%nat; apply quiet_ret.
Qed.

Lemma quiet_applyOperator (operator : string) (values : list number) :
  quiet (applyOperator operator values).
Proof.
  unfold applyOperator.
  destruct (pop values) as [operand2 values1].
  destruct (pop values1) as [operand1 values2].
  apply quiet_bind; [| intros; apply quiet_ret].
  repeat match goal with
         | |- quiet (if ?b then _ else _) => destruct b
         end;
    first [apply quiet_ret | apply quiet_fail].
Qed.

Lemma quiet_closeParenLoop (operators : list string) :
  forall values, quiet (closeParenLoop operators values).
Proof.
  induction operators as [| top operators IH]; intros values; cbn.
  - apply quiet_ret.
  - destruct (negb (String.eqb top "(")); [| apply quiet_ret].
    apply quiet_bind; [apply quiet_applyOperator | intros; apply IH].
Qed.

Lemma quiet_precedenceLoop (token : string) (operators : list string) :
  forall values, quiet (precedenceLoop token operators values).
Proof.
  induction operators as [| top operators IH]; intros values; cbn.
  - apply quiet_ret.
  - destruct (_ <=? _)%nat; [| apply quiet_ret].
    apply quiet_bind; [apply quiet_applyOperator | intros; apply IH].
Qed.

Lemma quiet_finalLoop (operators : list string) :
  forall values, quiet (finalLoop operators values).
Proof.
  induction operators as [| top operators IH]; intros values; cbn.
  - apply quiet_ret.
  - apply quiet_bind; [apply quiet_applyOperator | intros; apply IH].
Qed.

Lemma quiet_scanToken (token : string) (stacks : list number * list string) :
  quiet (scanToken token stacks).
Proof.
  unfold scanToken. destruct stacks as [values operators].
  destruct (isNumber token); [apply quiet_ret |].
  destruct (isCellReference isValidCellLabel token).
  { apply quiet_bind; [apply quiet_getCellValue |].
    intros [value err]. destruct (truthy err); [apply quiet_fail | apply quiet_ret]. }
  destruct (String.eqb token "("); [apply quiet_ret |].
  destruct (String.eqb token ")").
  { apply quiet_bind; [apply quiet_closeParenLoop |].
    intros [ops vals]. apply quiet_ret. }
  destruct (isOperator token); [| apply quiet_ret].
  apply quiet_bind; [apply quiet_precedenceLoop |].
  intros [ops vals]. apply quiet_ret.
Qed.

Lemma quiet_scanTokens (tokens : list string) :
  forall stacks, quiet (scanTokens tokens stacks).
Proof.
  induction tokens as [| token tokens IH]; intros stacks; cbn.
  - apply quiet_ret.
  - apply quiet_bind; [apply quiet_scanToken | intros; apply IH].
Qed.

Lemma quiet_reduceTokens (tokens : list string) : quiet (reduceTokens tokens).
Proof.
  unfold reduceTokens. apply quiet_bind.
  - apply quiet_scanTokens.
  - intros [values operators]. apply quiet_finalLoop.
Qed.

Lemma quiet_evaluateExpression (tokens : list string) :
  quiet (evaluateExpression tokens).
Proof.
  unfold evaluateExpression. apply quiet_bind.
  - apply quiet_reduceTokens.
  - intros values. destruct (negb _); [apply quiet_fail | apply quiet_ret].
Qed.

(** What [evaluate] leaves behind, by cases on the formula and on the
    outcome of [evaluateExpression]. *)
Lemma evaluate_empty (this : FormulaEvaluator) :
  evaluate [] this
  = (Return tt, {| _sheetMemory := _sheetMemory this;
                   _errorMessage := emptyFormula ErrorMessages;
                   _result := zero |}).
Proof. reflexivity. Qed.

Lemma evaluate_returns (token : string) (tokens : list string)
    (this this' : FormulaEvaluator) (r : number) :
  evaluateExpression (token :: tokens) (reset this) = (Return r, this') ->
  evaluate (token :: tokens) this
  = (Return tt, {| _sheetMemory := _sheetMemory this;
                   _errorMessage := "";
                   _result := r |}).
Proof.
  intros H. pose proof (quiet_evaluateExpression (token :: tokens) (reset this)) as Q.
  rewrite H in Q. subst this'.
  unfold evaluate, bind, try_catch; cbn -[evaluateExpression].
  unfold reset, constructor in H. rewrite H. reflexivity.
Qed.

Lemma evaluate_throws (token : string) (tokens : list string)
    (this this' : FormulaEvaluator) (msg : string) :
  evaluateExpression (token :: tokens) (reset this) = (Throw msg, this') ->
  evaluate (token :: tokens) this
  = (Return tt, {| _sheetMemory := _sheetMemory this;
                   _errorMessage := invalidFormula ErrorMessages;
                   _result := zero |}).
Proof.
  intros H. pose proof (quiet_evaluateExpression (token :: tokens) (reset this)) as Q.
  rewrite H in Q. destruct Q as [Qm Qr].
  unfold evaluate, bind, try_catch; cbn -[evaluateExpression].
  unfold reset, constructor in H. rewrite H.
  unfold set_errorMessage. rewrite Qm, Qr. reflexivity.
Qed.

(** The instance after [evaluate], in one of three shapes. *)
Lemma after_evaluate_cases (formula : list string) (this : FormulaEvaluator) :
  evaluate formula this = (Return tt, after_evaluate formula this) /\
  _sheetMemory (after_evaluate formula this) = _sheetMemory this /\
  match formula with
  | [] =>
      error (after_evaluate formula this) = emptyFormula ErrorMessages /\
      result (after_evaluate formula this) = zero
  | _ :: _ =>
      match evaluateExpression formula (reset this) with
      | (Return r, _) =>
          error (after_evaluate formula this) = "" /\
          result (after_evaluate formula this) = r
      | (Throw _, _) =>
          error (after_evaluate formula this) = invalidFormula ErrorMessages /\
          result (after_evaluate formula this) = zero
      end
  end.
Proof.
  unfold after_evaluate. destruct formula as [| token tokens].
  - rewrite evaluate_empty. cbn. auto.
  - destruct (evaluateExpression (token :: tokens) (reset this))
      as [[r | msg] this'] eqn:E.
    + rewrite (evaluate_returns _ _ _ _ _ E). cbn. auto.
    + rewrite (evaluate_throws _ _ _ _ _ E). cbn. auto.
Qed.

Lemma evaluate_reset (formula : list string) (this : FormulaEvaluator) :
  evaluate formula (reset this) = evaluate formula this.
Proof. reflexivity. Qed.

(** Two instances over the same sheet are indistinguishable to [evaluate]. *)
Lemma evaluate_same_sheet (formula : list string) (this1 this2 : FormulaEvaluator) :
  _sheetMemory this1 = _sheetMemory this2 ->
  evaluate formula this1 = evaluate formula this2.
Proof.
  intros H. rewrite <- (evaluate_reset formula this1), <- (evaluate_reset formula this2).
  unfold reset. rewrite H. reflexivity.
Qed.

(** C6: for the empty token sequence, [evaluate] reports the EmptyFormula
    error and [result()] is 0. *)
Theorem evaluate_empty_formula (this : FormulaEvaluator) :
  evaluate [] this = (Return tt, after_evaluate [] this) /\
  error (after_evaluate [] this) = emptyFormula ErrorMessages /\
  result (after_evaluate [] this) = zero.
Proof.
  destruct (after_evaluate_cases [] this) as (Hret & _ & Herr & Hres). auto.
Qed.

(** C4: for every token sequence and every behaviour of the sheet lookup
    (including a lookup that throws), [evaluate] returns normally.  All loops
    of the method are structural recursions, so the call terminates; whatever
    [evaluateExpression] throws is caught, and the caller observes a result
    and error pair: the InvalidFormula error with result 0 after a throw. *)
Theorem evaluate_never_throws (formula : list string) (this : FormulaEvaluator) :
  exists this' : FormulaEvaluator,
    evaluate formula this = (Return tt, this') /\
    match formula with
    | [] => error this' = emptyFormula ErrorMessages /\ result this' = zero
    | _ :: _ =>
        match evaluateExpression formula (reset this) with
        | (Return r, _) => error this' = "" /\ result this' = r
        | (Throw _, _) =>
            error this' = invalidFormula ErrorMessages /\ result this' = zero
        end
    end.
Proof.
  exists (after_evaluate formula this).
  destruct (after_evaluate_cases formula this) as (Hret & _ & Hcases).
  split; [exact Hret | exact Hcases].
Qed.

(** C5: when the scan of a non-empty token sequence completes and, after all
    remaining operators are applied, the values stack does not hold exactly
    one value, [evaluate] reports the InvalidFormula error. *)
Theorem leftover_values_invalidFormula (tokens : list string)
    (this this1 : FormulaEvaluator) (values : list number) :
  tokens <> [] ->
  reduceTokens tokens (reset this) = (Return values, this1) ->
  length values <> 1%nat ->
  error (after_evaluate tokens this) = invalidFormula ErrorMessages /\
  result (after_evaluate tokens this) = zero.
Proof.
  intros Hne Hred Hlen.
  destruct (after_evaluate_cases tokens this) as (_ & _ & Hcases).
  destruct tokens as [| token tokens]; [contradiction |].
  unfold evaluateExpression, bind in Hcases. rewrite Hred in Hcases.
  apply Nat.eqb_neq in Hlen. rewrite Hlen in Hcases. exact Hcases.
Qed.

(** C7: after [evaluate] returns, a non-empty error means that the result
    is the sentinel 0. *)
Theorem error_implies_sentinel (formula : list string) (this : FormulaEvaluator) :
  error (after_evaluate formula this) <> "" ->
  result (after_evaluate formula this) = zero.
Proof.
  intros Herr.
  destruct (after_evaluate_cases formula this) as (_ & _ & Hcases).
  destruct formula as [| token tokens].
  - apply Hcases.
  - destruct (evaluateExpression (token :: tokens) (reset this)) as [[r | msg] this1].
    + destruct Hcases as [He _]. contradiction.
    + apply Hcases.
Qed.

(** C8: a second call of [evaluate] with the same tokens over the same sheet
    leaves the same instance, hence the same result and error, as the first;
    the values the two fields held before a call have no influence on it. *)
Theorem evaluate_twice (formula : list string) (this : FormulaEvaluator) :
  let once := after_evaluate formula this in
  let twice := after_evaluate formula once in
  error twice = error once /\ result twice = result once /\ twice = once /\
  forall (e : string) (r : number),
    after_evaluate formula
      {| _sheetMemory := _sheetMemory this; _errorMessage := e; _result := r |}
    = once.
Proof.
  cbv zeta.
  assert (H : after_evaluate formula (after_evaluate formula this)
              = after_evaluate formula this).
  { unfold after_evaluate at 1 3. f_equal. apply evaluate_same_sheet.
    apply after_evaluate_cases. }
  rewrite H. repeat split; try reflexivity.
Qed.

Lemma evaluate_nonempty (formula : list string) (this : FormulaEvaluator) :
  formula <> [] ->
  evaluate formula this
  = try_catch
      (result <- evaluateExpression formula ;; set_result result)
      (fun _ => set_errorMessage (invalidFormula ErrorMessages))
      (reset this).
Proof. destruct formula; [contradiction | reflexivity]. Qed.

(** [v || 0] is [===] to [v] unless [v] is NaN. *)
Lemma orZero_strictEq (v : number) :
  isNaN v = false -> strictEq (orZero (Some v)) v = true.
Proof.
  destruct v as [s | s | | s m e]; cbn; try discriminate; intros _.
  - reflexivity.
  - destruct s; reflexivity.
  - unfold strictEq, SFeqb, SFcompare.
    rewrite Z.compare_refl, Pos.compare_cont_refl. destruct s; reflexivity.
Qed.

(** ** The scan, token by token *)

Lemma scanTokens_app (tokens rest : list string) :
  forall stacks this,
    scanTokens (tokens ++ rest) stacks this
    = bind (scanTokens tokens stacks) (scanTokens rest) this.
Proof.
  induction tokens as [| token tokens IH]; intros stacks this; cbn.
  - reflexivity.
  - unfold bind.
    destruct (scanToken token stacks this) as [[stacks' | msg] this']; [| reflexivity].
    exact (IH stacks' this').
Qed.

Lemma finalLoop_app (po1 po2 : list string) :
  forall values this,
    finalLoop (po1 ++ po2) values this
    = bind (finalLoop po1 values) (finalLoop po2) this.
Proof.
  induction po1 as [| top po1 IH]; intros values this; cbn.
  - reflexivity.
  - unfold bind.
    destruct (applyOperator top values this) as [[values' | msg] this']; [| reflexivity].
    exact (IH values' this').
Qed.

Lemma finalLoop_single (top : string) (values : list number)
    (this : FormulaEvaluator) :
  finalLoop [top] values this = applyOperator top values this.
Proof.
  cbn. unfold bind.
  destruct (applyOperator top values this) as [[values' | msg] this']; reflexivity.
Qed.

Lemma scanToken_number (token : string) (values : list number)
    (operators : list string) (this : FormulaEvaluator) :
  isNumber token = true ->
  scanToken token (values, operators) this
  = (Return (Number token :: values, operators), this).
Proof. intros H. unfold scanToken. rewrite H. reflexivity. Qed.

Lemma scanToken_unrecognized (token : string)
    (stacks : list number * list string) (this : FormulaEvaluator) :
  unrecognized isValidCellLabel token = true ->
  scanToken token stacks this = (Return stacks, this).
Proof.
  unfold unrecognized. intros H.
  repeat (apply andb_prop in H; destruct H as [H ?]).
  unfold scanToken. destruct stacks as [values operators].
  repeat match goal with
         | E : negb ?b = true |- _ => apply negb_true_iff in E; rewrite E
         end.
  reflexivity.
Qed.

Lemma applyOperator_add (o : addop) (x y : number) (vs : list number)
    (this : FormulaEvaluator) :
  applyOperator (addToken o) (y :: x :: vs) this
  = (Return (applyAdd o x y :: vs), this).
Proof. destruct o; reflexivity. Qed.

Lemma applyOperator_mul (o : mulop) (x y a : number) (vs : list number)
    (this : FormulaEvaluator) :
  applyMul o x y = Some a ->
  applyOperator (mulToken o) (y :: x :: vs) this = (Return (a :: vs), this).
Proof.
  destruct o; cbn.
  - intros [= <-]. reflexivity.
  - unfold applyOperator, bind. cbn.
    destruct (strictEq y zero); [discriminate |].
    intros [= <-]. reflexivity.
Qed.

(** Division by a zero: the method records DivideByZero and throws. *)
Lemma applyOperator_divide_by_zero (y : number) (vs : list number)
    (this : FormulaEvaluator) :
  strictEq y zero = true ->
  applyOperator "/" (y :: vs) this = divisionByZero this.
Proof.
  intros H. unfold applyOperator, bind. cbn.
  destruct vs as [| x vs]; cbn; rewrite H; reflexivity.
Qed.

Lemma precedence_not_open (top : string) :
  (1 <=? getOperatorPrecedence top)%nat = true -> String.eqb top "(" = false.
Proof.
  intros H. destruct (String.eqb_spec top "(") as [-> | _]; [| reflexivity].
  discriminate H.
Qed.

Lemma precedenceLoop_pending (token : string) (po ops : list string) :
  forallb (fun top => (getOperatorPrecedence token <=? getOperatorPrecedence top)%nat) po
  = true ->
  topBelow (getOperatorPrecedence token) ops = true ->
  forall values this,
    precedenceLoop token (po ++ ops) values this
    = bind (finalLoop po values) (fun values' => ret (ops, values')) this.
Proof.
  intros Hpo Hops. induction po as [| top po IH]; intros values this.
  - cbn. destruct ops as [| top ops]; [reflexivity |].
    cbn in Hops |- *. apply Nat.ltb_lt in Hops.
    destruct (Nat.leb_spec (getOperatorPrecedence token) (getOperatorPrecedence top));
      [lia | reflexivity].
  - cbn in Hpo. apply andb_prop in Hpo. destruct Hpo as [Htop Hpo].
    cbn. rewrite Htop. unfold bind.
    destruct (applyOperator top values this) as [[values' | msg] this']; [| reflexivity].
    exact (IH Hpo values' this').
Qed.

Lemma closeParenLoop_pending (po ops : list string) :
  forallb (fun top => (1 <=? getOperatorPrecedence top)%nat) po = true ->
  forall values this,
    closeParenLoop (po ++ "(" :: ops) values this
    = bind (finalLoop po values) (fun values' => ret ("(" :: ops, values')) this.
Proof.
  intros Hpo. induction po as [| top po IH]; intros values this.
  - reflexivity.
  - cbn in Hpo. apply andb_prop in Hpo. destruct Hpo as [Htop Hpo].
    cbn. rewrite (precedence_not_open top Htop). cbn. unfold bind.
    destruct (applyOperator top values this) as [[values' | msg] this']; [| reflexivity].
    exact (IH Hpo values' this').
Qed.

Lemma pending_weaken (po : list string) (pv : list number) (a : number) :
  pending 2 po pv a -> pending 1 po pv a.
Proof.
  intros [Hpo Hrun]. split; [| exact Hrun].
  rewrite forallb_forall in *. intros top Hin. specialize (Hpo top Hin).
  apply Nat.leb_le in Hpo. apply Nat.leb_le. lia.
Qed.

Lemma topBelow_weaken (ops : list string) :
  topBelow 1 ops = true -> topBelow 2 ops = true.
Proof.
  destruct ops as [| top ops]; [reflexivity |]. unfold topBelow. intros H.
  apply Nat.ltb_lt in H. apply Nat.ltb_lt. lia.
Qed.

Lemma scanTokens_cons (token : string) (rest : list string)
    (stacks : list number * list string) (this : FormulaEvaluator) :
  scanTokens (token :: rest) stacks this
  = bind (scanToken token stacks) (scanTokens rest) this.
Proof. reflexivity. Qed.

Lemma scan_number (token : string) (rest : list string) (vs : list number)
    (ops : list string) (this : FormulaEvaluator) :
  isNumber token = true ->
  scanTokens (token :: rest) (vs, ops) this
  = scanTokens rest (Number token :: vs, ops) this.
Proof.
  intros H. rewrite scanTokens_cons. unfold bind.
  rewrite (scanToken_number _ _ _ _ H). reflexivity.
Qed.

(** ** Operator precedence on well-formed formulas *)

Section Precedence.

Hypothesis symbols : symbolsAreNotLabels isValidCellLabel.

Lemma symbol_not_label (s : string) :
  In s ["("; ")"; "+"; "-"; "*"; "/"] ->
  isCellReference isValidCellLabel s = false.
Proof.
  intros H. unfold symbolsAreNotLabels in symbols.
  rewrite forallb_forall in symbols. apply negb_true_iff, symbols, H.
Qed.

Lemma scan_open (rest : list string) (vs : list number) (ops : list string)
    (this : FormulaEvaluator) :
  scanTokens ("(" :: rest) (vs, ops) this = scanTokens rest (vs, "(" :: ops) this.
Proof.
  rewrite scanTokens_cons. unfold bind, scanToken.
  rewrite (symbol_not_label "(") by (cbn; tauto). reflexivity.
Qed.

Lemma scan_close (rest : list string) (po : list string) (pv : list number)
    (a : number) (vs : list number) (ops : list string) (this : FormulaEvaluator) :
  pending 1 po pv a ->
  scanTokens (")" :: rest) (pv ++ vs, po ++ "(" :: ops) this
  = scanTokens rest (a :: vs, ops) this.
Proof.
  intros [Hpo Hrun]. rewrite scanTokens_cons. unfold bind at 1. unfold scanToken.
  rewrite (symbol_not_label ")") by (cbn; tauto).
  change (isNumber ")") with false. cbn iota. cbn [String.eqb Ascii.eqb Bool.eqb].
  unfold bind. rewrite (closeParenLoop_pending _ _ Hpo). unfold bind.
  rewrite Hrun. reflexivity.
Qed.

Lemma scan_operator (token : string) (p : nat) (rest : list string)
    (po : list string) (pv : list number) (a : number) (vs : list number)
    (ops : list string) (this : FormulaEvaluator) :
  In token ["+"; "-"; "*"; "/"] ->
  getOperatorPrecedence token = p ->
  pending p po pv a ->
  topBelow p ops = true ->
  scanTokens (token :: rest) (pv ++ vs, po ++ ops) this
  = scanTokens rest (a :: vs, token :: ops) this.
Proof.
  intros Hin Hp [Hpo Hrun] Hops. subst p.
  rewrite scanTokens_cons. unfold bind at 1.
  assert (Hstep : scanToken token (pv ++ vs, po ++ ops) this
                  = (Return (a :: vs, token :: ops), this)).
  { unfold scanToken.
    rewrite (symbol_not_label token) by (cbn in Hin |- *; tauto).
    assert (Hloop : precedenceLoop token (po ++ ops) (pv ++ vs) this
                    = (Return (ops, a :: vs), this)).
    { rewrite (precedenceLoop_pending _ _ _ Hpo Hops). unfold bind.
      rewrite Hrun. reflexivity. }
    cbn in Hin.
    destruct Hin as [<- | [<- | [<- | [<- | []]]]];
      (change (isNumber _) with false; cbn; unfold bind; rewrite Hloop; reflexivity). }
  rewrite Hstep. reflexivity.
Qed.

Lemma scan_formula :
  (forall e : expr,
      literalsE e = true ->
      forall a, evalE e = Some a ->
      exists pv po,
        pending 1 po pv a /\
        forall rest vs ops this,
          topBelow 1 ops = true ->
          scanTokens (tokensE e ++ rest) (vs, ops) this
          = scanTokens rest (pv ++ vs, po ++ ops) this) /\
  (forall t : term,
      literalsT t = true ->
      forall a, evalT t = Some a ->
      exists pv po,
        pending 2 po pv a /\
        forall rest vs ops this,
          topBelow 2 ops = true ->
          scanTokens (tokensT t ++ rest) (vs, ops) this
          = scanTokens rest (pv ++ vs, po ++ ops) this) /\
  (forall f : factor,
      literalsF f = true ->
      forall a, evalF f = Some a ->
      forall rest vs ops this,
        scanTokens (tokensF f ++ rest) (vs, ops) this
        = scanTokens rest (a :: vs, ops) this).
Proof.
  apply formula_ind.
  - (* ETerm *)
    intros t IH Hlit a Hev. cbn in Hlit, Hev.
    destruct (IH Hlit a Hev) as (pv & po & Hp & Hscan).
    exists pv, po. split; [apply pending_weaken, Hp |].
    intros rest vs ops this Hops. cbn [tokensE].
    apply Hscan, topBelow_weaken, Hops.
  - (* EBin *)
    intros e IHe o t IHt Hlit a Hev. cbn in Hlit, Hev.
    apply andb_prop in Hlit. destruct Hlit as [Hle Hlt].
    destruct (evalE e) as [x |] eqn:Ex; [| discriminate].
    destruct (evalT t) as [y |] eqn:Ey; [| discriminate].
    injection Hev as <-.
    destruct (IHe Hle x eq_refl) as (pv1 & po1 & Hp1 & Hscan1).
    destruct (IHt Hlt y eq_refl) as (pv2 & po2 & Hp2 & Hscan2).
    exists (pv2 ++ [x]), (po2 ++ [addToken o]). split.
    + split.
      * rewrite forallb_app. rewrite (proj1 (pending_weaken _ _ _ Hp2)).
        destruct o; reflexivity.
      * intros vs this. rewrite finalLoop_app, <- app_assoc. unfold bind.
        rewrite (proj2 Hp2). rewrite finalLoop_single.
        apply applyOperator_add.
    + intros rest vs ops this Hops. cbn [tokensE].
      rewrite <- app_assoc, <- app_comm_cons.
      rewrite (Hscan1 _ _ _ _ Hops).
      rewrite (scan_operator (addToken o) 1 _ _ _ _ _ _ _
                 ltac:(destruct o; cbn; tauto) ltac:(destruct o; reflexivity)
                 Hp1 Hops).
      rewrite Hscan2 by (destruct o; reflexivity).
      rewrite <- !app_assoc. reflexivity.
  - (* TFactor *)
    intros f IH Hlit a Hev. cbn in Hlit, Hev.
    exists [a], []. split.
    + split; [reflexivity | intros vs this; reflexivity].
    + intros rest vs ops this _. cbn [tokensT]. apply (IH Hlit a Hev).
  - (* TBin *)
    intros t IHt o f IHf Hlit a Hev. cbn in Hlit, Hev.
    apply andb_prop in Hlit. destruct Hlit as [Hlt Hlf].
    destruct (evalT t) as [x |] eqn:Ex; [| discriminate].
    destruct (evalF f) as [y |] eqn:Ey; [| discriminate].
    destruct (IHt Hlt x eq_refl) as (pv1 & po1 & Hp1 & Hscan1).
    exists [y; x], [mulToken o]. split.
    + split; [destruct o; reflexivity |].
      intros vs this. cbn [app]. rewrite finalLoop_single.
      apply applyOperator_mul, Hev.
    + intros rest vs ops this Hops. cbn [tokensT].
      rewrite <- app_assoc, <- app_comm_cons.
      rewrite (Hscan1 _ _ _ _ Hops).
      rewrite (scan_operator (mulToken o) 2 _ _ _ _ _ _ _
                 ltac:(destruct o; cbn; tauto) ltac:(destruct o; reflexivity)
                 Hp1 Hops).
      rewrite (IHf Hlf y eq_refl). reflexivity.
  - (* FNum *)
    intros token Hlit a Hev rest vs ops this. cbn in Hlit, Hev.
    injection Hev as <-. cbn [tokensF app]. apply scan_number, Hlit.
  - (* FParen *)
    intros e IH Hlit a Hev rest vs ops this. cbn in Hlit, Hev.
    destruct (IH Hlit a Hev) as (pv & po & Hp & Hscan).
    cbn [tokensF]. rewrite <- app_comm_cons, <- app_assoc. cbn [app].
    rewrite scan_open. rewrite Hscan by reflexivity.
    apply scan_close, Hp.
Qed.

Lemma doomed_weaken (po : list string) (pv : list number) :
  doomed 2 po pv -> doomed 1 po pv.
Proof.
  intros [Hpo Hrun]. split; [| exact Hrun].
  rewrite forallb_forall in *. intros top Hin. specialize (Hpo top Hin).
  apply Nat.leb_le in Hpo. apply Nat.leb_le. lia.
Qed.

Lemma scan_close_doomed (rest : list string) (po : list string)
    (pv vs : list number) (ops : list string) (this : FormulaEvaluator) :
  doomed 1 po pv ->
  scanDividesByZero (")" :: rest) (pv ++ vs, po ++ "(" :: ops) this.
Proof.
  intros [Hpo Hrun]. unfold scanDividesByZero.
  rewrite scanTokens_cons. unfold bind at 1. unfold scanToken.
  rewrite (symbol_not_label ")") by (cbn; tauto).
  change (isNumber ")") with false. cbn iota. cbn [String.eqb Ascii.eqb Bool.eqb].
  unfold bind. rewrite (closeParenLoop_pending _ _ Hpo). unfold bind.
  rewrite Hrun. reflexivity.
Qed.

Lemma scan_operator_doomed (token : string) (p : nat) (rest : list string)
    (po : list string) (pv vs : list number) (ops : list string)
    (this : FormulaEvaluator) :
  In token ["+"; "-"; "*"; "/"] ->
  getOperatorPrecedence token = p ->
  doomed p po pv ->
  topBelow p ops = true ->
  scanDividesByZero (token :: rest) (pv ++ vs, po ++ ops) this.
Proof.
  intros Hin Hp [Hpo Hrun] Hops. subst p. unfold scanDividesByZero.
  rewrite scanTokens_cons. unfold bind at 1.
  assert (Hstep : scanToken token (pv ++ vs, po ++ ops) this
                  = (Throw "Division by zero",
                     {| _sheetMemory := _sheetMemory this;
                        _errorMessage := divideByZero ErrorMessages;
                        _result := _result this |})).
  { unfold scanToken.
    rewrite (symbol_not_label token) by (cbn in Hin |- *; tauto).
    assert (Hloop : precedenceLoop token (po ++ ops) (pv ++ vs) this
                    = (Throw "Division by zero",
                       {| _sheetMemory := _sheetMemory this;
                          _errorMessage := divideByZero ErrorMessages;
                          _result := _result this |})).
    { rewrite (precedenceLoop_pending _ _ _ Hpo Hops). unfold bind.
      rewrite Hrun. reflexivity. }
    cbn in Hin.
    destruct Hin as [<- | [<- | [<- | [<- | []]]]];
      (change (isNumber _) with false; cbn; unfold bind; rewrite Hloop; reflexivity). }
  rewrite Hstep. reflexivity.
Qed.

(** A formula whose standard evaluation divides by a zero: the scan either
    stops on that division, or reaches the end of the formula with the
    division pending. *)
Lemma scan_formula_undefined :
  (forall e : expr,
      literalsE e = true ->
      evalE e = None ->
      forall rest vs ops this,
        topBelow 1 ops = true ->
        scanDividesByZero (tokensE e ++ rest) (vs, ops) this \/
        exists pv po,
          doomed 1 po pv /\
          scanTokens (tokensE e ++ rest) (vs, ops) this
          = scanTokens rest (pv ++ vs, po ++ ops) this) /\
  (forall t : term,
      literalsT t = true ->
      evalT t = None ->
      forall rest vs ops this,
        topBelow 2 ops = true ->
        scanDividesByZero (tokensT t ++ rest) (vs, ops) this \/
        exists pv po,
          doomed 2 po pv /\
          scanTokens (tokensT t ++ rest) (vs, ops) this
          = scanTokens rest (pv ++ vs, po ++ ops) this) /\
  (forall f : factor,
      literalsF f = true ->
      evalF f = None ->
      forall rest vs ops this,
        scanDividesByZero (tokensF f ++ rest) (vs, ops) this).
Proof.
  destruct scan_formula as (ScanE & ScanT & ScanF).
  apply formula_ind.
  - (* ETerm *)
    intros t IH Hlit Hev rest vs ops this Hops. cbn in Hlit, Hev. cbn [tokensE].
    destruct (IH Hlit Hev rest vs ops this (topBelow_weaken _ Hops))
      as [Hthrow | (pv & po & Hd & Hscan)].
    + left. exact Hthrow.
    + right. exists pv, po. split; [apply doomed_weaken, Hd | exact Hscan].
  - (* EBin *)
    intros e IHe o t IHt Hlit Hev rest vs ops this Hops. cbn in Hlit, Hev.
    apply andb_prop in Hlit. destruct Hlit as [Hle Hlt].
    cbn [tokensE]. rewrite <- app_assoc, <- app_comm_cons.
    assert (Hin : In (addToken o) ["+"; "-"; "*"; "/"]) by (destruct o; cbn; tauto).
    assert (Hprec : getOperatorPrecedence (addToken o) = 1%nat)
      by (destruct o; reflexivity).
    destruct (evalE e) as [x |] eqn:Ex.
    + destruct (evalT t) as [y |] eqn:Ey; [discriminate |].
      destruct (ScanE e Hle x Ex) as (pv1 & po1 & Hp1 & Hscan1).
      unfold scanDividesByZero.
      rewrite (Hscan1 _ _ _ _ Hops).
      rewrite (scan_operator (addToken o) 1 _ _ _ _ _ _ _ Hin Hprec Hp1 Hops).
      destruct (IHt Hlt eq_refl rest (x :: vs) (addToken o :: ops) this
                  ltac:(destruct o; reflexivity))
        as [Hthrow | (pv2 & po2 & [Hpo2 Hrun2] & Hscan2)].
      * left. exact Hthrow.
      * right. exists (pv2 ++ [x]), (po2 ++ [addToken o]). split.
        -- split.
           ++ rewrite forallb_app.
              rewrite (proj1 (doomed_weaken _ _ (conj Hpo2 Hrun2))).
              destruct o; reflexivity.
           ++ intros vs' this'. rewrite finalLoop_app, <- app_assoc. unfold bind.
              rewrite Hrun2. reflexivity.
        -- rewrite Hscan2, <- !app_assoc. reflexivity.
    + left.
      destruct (IHe Hle eq_refl (addToken o :: tokensT t ++ rest) vs ops this Hops)
        as [Hthrow | (pv1 & po1 & Hd1 & Hscan1)].
      * exact Hthrow.
      * unfold scanDividesByZero. rewrite Hscan1.
        apply (scan_operator_doomed (addToken o) 1 _ _ _ _ _ _ Hin Hprec Hd1 Hops).
  - (* TFactor *)
    intros f IH Hlit Hev rest vs ops this _. cbn in Hlit, Hev. cbn [tokensT].
    left. apply (IH Hlit Hev).
  - (* TBin *)
    intros t IHt o f IHf Hlit Hev rest vs ops this Hops. cbn in Hlit, Hev.
    apply andb_prop in Hlit. destruct Hlit as [Hlt Hlf].
    cbn [tokensT]. rewrite <- app_assoc, <- app_comm_cons.
    assert (Hin : In (mulToken o) ["+"; "-"; "*"; "/"]) by (destruct o; cbn; tauto).
    assert (Hprec : getOperatorPrecedence (mulToken o) = 2%nat)
      by (destruct o; reflexivity).
    destruct (evalT t) as [x |] eqn:Ex.
    + destruct (ScanT t Hlt x Ex) as (pv1 & po1 & Hp1 & Hscan1).
      unfold scanDividesByZero.
      rewrite (Hscan1 _ _ _ _ Hops).
      rewrite (scan_operator (mulToken o) 2 _ _ _ _ _ _ _ Hin Hprec Hp1 Hops).
      destruct (evalF f) as [y |] eqn:Ey.
      * right. exists [y; x], [mulToken o]. split.
        -- destruct o; [discriminate |]. cbn in Hev.
           destruct (strictEq y zero) eqn:Hzero; [| discriminate].
           split; [reflexivity |].
           intros vs' this'. cbn [app]. rewrite finalLoop_single.
           apply applyOperator_divide_by_zero, Hzero.
        -- apply (ScanF f Hlf y Ey).
      * left. apply (IHf Hlf eq_refl).
    + left.
      destruct (IHt Hlt eq_refl (mulToken o :: tokensF f ++ rest) vs ops this Hops)
        as [Hthrow | (pv1 & po1 & Hd1 & Hscan1)].
      * exact Hthrow.
      * unfold scanDividesByZero. rewrite Hscan1.
        apply (scan_operator_doomed (mulToken o) 2 _ _ _ _ _ _ Hin Hprec Hd1 Hops).
  - (* FNum *)
    intros token Hlit Hev. discriminate Hev.
  - (* FParen *)
    intros e IH Hlit Hev rest vs ops this. cbn in Hlit, Hev.
    cbn [tokensF]. rewrite <- app_comm_cons, <- app_assoc. cbn [app].
    unfold scanDividesByZero. rewrite scan_open.
    destruct (IH Hlit Hev (")" :: rest) vs ("(" :: ops) this eq_refl)
      as [Hthrow | (pv & po & Hd & Hscan)].
    + exact Hthrow.
    + rewrite Hscan. apply scan_close_doomed, Hd.
Qed.

Lemma evaluateExpression_undefined (e : expr) (this : FormulaEvaluator) :
  literalsE e = true ->
  evalE e = None ->
  evaluateExpression (tokensE e) this
  = (Throw "Division by zero",
     {| _sheetMemory := _sheetMemory this;
        _errorMessage := divideByZero ErrorMessages;
        _result := _result this |}).
Proof.
  intros Hlit Hev.
  unfold evaluateExpression, reduceTokens, bind.
  destruct (proj1 scan_formula_undefined e Hlit Hev [] [] [] this eq_refl)
    as [Hthrow | (pv & po & [_ Hrun] & Hscan)];
    rewrite (app_nil_r (tokensE e)) in *.
  - rewrite Hthrow. reflexivity.
  - rewrite Hscan.
    change (scanTokens [] (pv ++ [], po ++ []) this)
      with (Return (pv ++ [], po ++ []), this).
    rewrite (app_nil_r po), (Hrun [] this). reflexivity.
Qed.

Lemma tokens_nonempty :
  (forall e : expr, tokensE e <> []) /\
  (forall t : term, tokensT t <> []) /\
  (forall f : factor, tokensF f <> []).
Proof.
  apply formula_ind; cbn; intros; try discriminate; try assumption;
    match goal with
    | |- ?l ++ _ :: _ <> [] => destruct l; discriminate
    end.
Qed.

Lemma evaluateExpression_formula (e : expr) (v : number) (this : FormulaEvaluator) :
  literalsE e = true ->
  evalE e = Some v ->
  evaluateExpression (tokensE e) this = (Return (orZero (Some v)), this).
Proof.
  intros Hlit Hev.
  destruct (proj1 scan_formula e Hlit v Hev) as (pv & po & [_ Hrun] & Hscan).
  unfold evaluateExpression, reduceTokens, bind.
  rewrite <- (app_nil_r (tokensE e)), (Hscan [] [] [] this eq_refl).
  change (scanTokens [] (pv ++ [], po ++ []) this)
    with (Return (pv ++ [], po ++ []), this).
  rewrite (app_nil_r po), (Hrun [] this). reflexivity.
Qed.

Lemma after_evaluate_formula (e : expr) (v : number) (this : FormulaEvaluator) :
  literalsE e = true ->
  evalE e = Some v ->
  error (after_evaluate (tokensE e) this) = "" /\
  result (after_evaluate (tokensE e) this) = orZero (Some v).
Proof.
  intros Hlit Hev.
  destruct (after_evaluate_cases (tokensE e) this) as (_ & _ & Hcases).
  rewrite (evaluateExpression_formula e v (reset this) Hlit Hev) in Hcases.
  destruct (tokensE e) eqn:E; [| exact Hcases].
  destruct (proj1 tokens_nonempty e E).
Qed.

(** C1 (amended): for every well-formed arithmetic-only token sequence whose
    standard infix evaluation [v] never divides by a zero, [evaluate] records
    no error and [result()] is [v || 0]: it is [===] to [v] unless [v] is
    NaN, in which case it is 0.  The standard evaluation is that of the
    grammar: [*] and [/] bind tighter than [+] and [-], equal precedence
    associates to the left, parentheses override.  In particular
    2 + 3 * 4 gives 14, ( 2 + 3 ) * 4 gives 20 and 8 - 3 - 2 gives 3,
    not 7. *)
Theorem evaluate_infix_formula :
  (forall (e : expr) (v : number) (this : FormulaEvaluator),
      literalsE e = true ->
      evalE e = Some v ->
      error (after_evaluate (tokensE e) this) = "" /\
      result (after_evaluate (tokensE e) this) = orZero (Some v) /\
      (isNaN v = false ->
       strictEq (result (after_evaluate (tokensE e) this)) v = true)) /\
  (forall this : FormulaEvaluator,
      error (after_evaluate ["2"; "+"; "3"; "*"; "4"] this) = "" /\
      result (after_evaluate ["2"; "+"; "3"; "*"; "4"] this) = ofZ 14) /\
  (forall this : FormulaEvaluator,
      error (after_evaluate ["("; "2"; "+"; "3"; ")"; "*"; "4"] this) = "" /\
      result (after_evaluate ["("; "2"; "+"; "3"; ")"; "*"; "4"] this) = ofZ 20) /\
  (forall this : FormulaEvaluator,
      error (after_evaluate ["8"; "-"; "3"; "-"; "2"] this) = "" /\
      result (after_evaluate ["8"; "-"; "3"; "-"; "2"] this) = ofZ 3 /\
      ofZ 3 <> ofZ 7).
Proof.
  split; [| split; [| split]].
  - intros e v this Hlit Hev.
    destruct (after_evaluate_formula e v this Hlit Hev) as [Herr Hres].
    repeat split; [exact Herr | exact Hres |].
    intros Hnan. rewrite Hres. apply orZero_strictEq, Hnan.
  - intros this.
    exact (after_evaluate_formula formula_2_plus_3_times_4 (ofZ 14) this
             eq_refl eq_refl).
  - intros this.
    exact (after_evaluate_formula formula_paren_2_plus_3_times_4 (ofZ 20) this
             eq_refl eq_refl).
  - intros this.
    destruct (after_evaluate_formula formula_8_minus_3_minus_2 (ofZ 3) this
                eq_refl eq_refl) as [Herr Hres].
    repeat split; [exact Herr | exact Hres | discriminate].
Qed.

(** C2: a well-formed arithmetic formula whose evaluation divides by a
    zero, such as 5 / 0.  [applyOperator] records DivideByZero and throws,
    and the handler in [evaluate] then overwrites the message: the caller
    reads InvalidFormula, with result 0. *)
Theorem divide_by_zero_reports_invalidFormula (e : expr)
    (this : FormulaEvaluator) :
  literalsE e = true ->
  evalE e = None ->
  evaluateExpression (tokensE e) (reset this)
  = (Throw "Division by zero",
     {| _sheetMemory := _sheetMemory this;
        _errorMessage := divideByZero ErrorMessages;
        _result := zero |}) /\
  error (after_evaluate (tokensE e) this) = invalidFormula ErrorMessages /\
  result (after_evaluate (tokensE e) this) = zero.
Proof.
  intros Hlit Hev.
  pose proof (evaluateExpression_undefined e (reset this) Hlit Hev) as Hthrow.
  split; [exact Hthrow |].
  destruct (after_evaluate_cases (tokensE e) this) as (_ & _ & Hcases).
  rewrite Hthrow in Hcases.
  destruct (tokensE e) eqn:E; [| exact Hcases].
  destruct (proj1 tokens_nonempty e E).
Qed.

(** ** Formulas that are not well formed *)

Lemma closeParenLoop_bottom (po : list string) :
  forallb (fun top => (1 <=? getOperatorPrecedence top)%nat) po = true ->
  forall values this,
    closeParenLoop po values this
    = bind (finalLoop po values) (fun values' => ret ([], values')) this.
Proof.
  intros Hpo. induction po as [| top po IH]; intros values this.
  - reflexivity.
  - cbn in Hpo. apply andb_prop in Hpo. destruct Hpo as [Htop Hpo].
    cbn. rewrite (precedence_not_open top Htop). cbn. unfold bind.
    destruct (applyOperator top values this) as [[values' | msg] this']; [| reflexivity].
    exact (IH Hpo values' this').
Qed.

Lemma scan_operator_bottom (token : string) (rest : list string)
    (vs : list number) (this : FormulaEvaluator) :
  In token ["+"; "-"; "*"; "/"] ->
  scanTokens (token :: rest) (vs, []) this = scanTokens rest (vs, [token]) this.
Proof.
  intros Hin. rewrite scanTokens_cons. unfold bind, scanToken.
  rewrite (symbol_not_label token) by (cbn in Hin |- *; tauto).
  cbn in Hin.
  destruct Hin as [<- | [<- | [<- | [<- | []]]]]; reflexivity.
Qed.

(** An operator applied to a single operand: the missing left operand is
    [undefined], and the sum or difference is NaN. *)
Lemma applyOperator_add_missing (o : addop) (v : number)
    (this : FormulaEvaluator) :
  applyOperator (addToken o) [v] this = (Return [NaN], this).
Proof. destruct o; reflexivity. Qed.

(** X7: an opening parenthesis that is never closed.  The parenthesis is
    still on the operator stack when the final loop runs; [applyOperator]
    takes it for an operator, records InvalidOperator and throws, and the
    caller reads InvalidFormula with result 0. *)
Theorem unclosed_parenthesis_invalidFormula (e : expr) (v : number)
    (this : FormulaEvaluator) :
  literalsE e = true ->
  evalE e = Some v ->
  evaluateExpression ("(" :: tokensE e) (reset this)
  = (Throw "Invalid operator",
     {| _sheetMemory := _sheetMemory this;
        _errorMessage := invalidOperator ErrorMessages;
        _result := zero |}) /\
  error (after_evaluate ("(" :: tokensE e) this) = invalidFormula ErrorMessages /\
  result (after_evaluate ("(" :: tokensE e) this) = zero.
Proof.
  intros Hlit Hev.
  destruct (proj1 scan_formula e Hlit v Hev) as (pv & po & [_ Hrun] & Hscan).
  assert (Hthrow : evaluateExpression ("(" :: tokensE e) (reset this)
                   = (Throw "Invalid operator",
                      {| _sheetMemory := _sheetMemory this;
                         _errorMessage := invalidOperator ErrorMessages;
                         _result := zero |})).
  { unfold evaluateExpression, reduceTokens, bind.
    rewrite scan_open, <- (app_nil_r (tokensE e)).
    rewrite (Hscan [] [] ["("] (reset this) eq_refl).
    change (scanTokens [] (pv ++ [], po ++ ["("]) (reset this))
      with (Return (pv ++ [], po ++ ["("]), reset this).
    cbv beta iota. rewrite finalLoop_app. unfold bind. rewrite (Hrun [] (reset this)).
    reflexivity. }
  split; [exact Hthrow |].
  destruct (after_evaluate_cases ("(" :: tokensE e) this) as (_ & _ & Hcases).
  rewrite Hthrow in Hcases. exact Hcases.
Qed.

(** X8: a closing parenthesis without an opening one is not detected.  At
    the head of a formula it is skipped; after a well-formed formula it
    reduces the pending operators as the final loop would, and the formula
    evaluates as if the parenthesis were absent. *)
Theorem stray_close_parenthesis_ignored :
  (forall (tokens : list string) (this : FormulaEvaluator),
      tokens <> [] ->
      evaluate (")" :: tokens) this = evaluate tokens this) /\
  (forall (e : expr) (v : number) (this : FormulaEvaluator),
      literalsE e = true ->
      evalE e = Some v ->
      error (after_evaluate (tokensE e ++ [")"]) this) = "" /\
      result (after_evaluate (tokensE e ++ [")"]) this) = orZero (Some v)).
Proof.
  split.
  - intros tokens this Hne.
    rewrite (evaluate_nonempty (")" :: tokens)) by discriminate.
    rewrite (evaluate_nonempty tokens) by exact Hne.
    assert (Hhead : forall this0,
               scanTokens (")" :: tokens) ([], []) this0
               = scanTokens tokens ([], []) this0).
    { intros this0. rewrite scanTokens_cons. unfold bind, scanToken.
      rewrite (symbol_not_label ")") by (cbn; tauto). reflexivity. }
    unfold try_catch, bind, evaluateExpression, reduceTokens, bind.
    rewrite Hhead. reflexivity.
  - intros e v this Hlit Hev.
    destruct (proj1 scan_formula e Hlit v Hev) as (pv & po & [Hpo Hrun] & Hscan).
    assert (Hret : evaluateExpression (tokensE e ++ [")"]) (reset this)
                   = (Return (orZero (Some v)), reset this)).
    { unfold evaluateExpression, reduceTokens, bind.
      rewrite (Hscan [")"] [] [] (reset this) eq_refl).
      rewrite scanTokens_cons. unfold bind, scanToken.
      rewrite (symbol_not_label ")") by (cbn; tauto).
      change (isNumber ")") with false. cbn iota.
      cbn [String.eqb Ascii.eqb Bool.eqb]. unfold bind.
      rewrite !app_nil_r, (closeParenLoop_bottom _ Hpo). unfold bind.
      rewrite <- (app_nil_r pv), (Hrun [] (reset this)). reflexivity. }
    destruct (after_evaluate_cases (tokensE e ++ [")"]) this) as (_ & _ & Hcases).
    rewrite Hret in Hcases.
    destruct (tokensE e ++ [")"]) eqn:E; [| exact Hcases].
    destruct (tokensE e); discriminate.
Qed.

(** X9: an additive operator with no right operand is not detected either.
    After a well-formed formula, a trailing [+] or [-] is applied to the
    value of the formula and a missing operand; the NaN this gives is
    returned as 0, with no error. *)
Theorem dangling_operator_yields_zero (e : expr) (o : addop) (v : number)
    (this : FormulaEvaluator) :
  literalsE e = true ->
  evalE e = Some v ->
  error (after_evaluate (tokensE e ++ [addToken o]) this) = "" /\
  result (after_evaluate (tokensE e ++ [addToken o]) this) = zero.
Proof.
  intros Hlit Hev.
  destruct (proj1 scan_formula e Hlit v Hev) as (pv & po & Hp & Hscan).
  assert (Hret : evaluateExpression (tokensE e ++ [addToken o]) (reset this)
                 = (Return zero, reset this)).
  { unfold evaluateExpression, reduceTokens, bind.
    rewrite (Hscan [addToken o] [] [] (reset this) eq_refl).
    rewrite (scan_operator (addToken o) 1 [] po pv v [] [] (reset this)
               ltac:(destruct o; cbn; tauto) ltac:(destruct o; reflexivity)
               Hp eq_refl).
    change (scanTokens [] ([v], [addToken o]) (reset this))
      with (Return ([v], [addToken o]), reset this).
    cbv beta iota. rewrite finalLoop_single, applyOperator_add_missing. reflexivity. }
  destruct (after_evaluate_cases (tokensE e ++ [addToken o]) this) as (_ & _ & Hcases).
  rewrite Hret in Hcases.
  destruct (tokensE e ++ [addToken o]) eqn:E; [| exact Hcases].
  destruct (tokensE e); discriminate.
Qed.

(** X10: a sign written as a token of its own is not a negation.  A [+] or
    [-] in front of a product of factors is applied, once the product is
    reduced, to a missing left operand; the result is 0 with no error. *)
Theorem leading_sign_yields_zero (t : term) (o : addop) (v : number)
    (this : FormulaEvaluator) :
  literalsT t = true ->
  evalT t = Some v ->
  error (after_evaluate (addToken o :: tokensT t) this) = "" /\
  result (after_evaluate (addToken o :: tokensT t) this) = zero.
Proof.
  intros Hlit Hev.
  destruct (proj1 (proj2 scan_formula) t Hlit v Hev) as (pv & po & [_ Hrun] & Hscan).
  assert (Hret : evaluateExpression (addToken o :: tokensT t) (reset this)
                 = (Return zero, reset this)).
  { unfold evaluateExpression, reduceTokens, bind.
    rewrite scan_operator_bottom by (destruct o; cbn; tauto).
    rewrite <- (app_nil_r (tokensT t)).
    rewrite (Hscan [] [] [addToken o] (reset this) ltac:(destruct o; reflexivity)).
    change (scanTokens [] (pv ++ [], po ++ [addToken o]) (reset this))
      with (Return (pv ++ [], po ++ [addToken o]), reset this).
    cbv beta iota. rewrite finalLoop_app. unfold bind. rewrite (Hrun [] (reset this)).
    rewrite finalLoop_single, applyOperator_add_missing. reflexivity. }
  destruct (after_evaluate_cases (addToken o :: tokensT t) this) as (_ & _ & Hcases).
  rewrite Hret in Hcases. exact Hcases.
Qed.

End Precedence.

(** ** Errors raised inside the reduction *)

(** C3: a reference to a cell that holds a stored error other than the
    empty-formula error, or whose formula has no token.  [evaluateExpression]
    stops at that reference, whatever follows it, with the cell's error
    (respectively InvalidCell) recorded; the handler in [evaluate] then
    overwrites the message and the caller reads InvalidFormula. *)
Theorem failing_reference_reports_invalidFormula (pre rest : list string)
    (ref : string) (cell : Cell) (stacks : list number * list string)
    (this this1 : FormulaEvaluator) :
  scanTokens pre ([], []) (reset this) = (Return stacks, this1) ->
  isNumber ref = false ->
  isCellReference isValidCellLabel ref = true ->
  getCellByLabel (_sheetMemory this) ref = Return cell ->
  let stored := truthy (getError cell)
                && negb (String.eqb (getError cell) (emptyFormula ErrorMessages)) in
  let err := if stored then getError cell else invalidCell ErrorMessages in
  stored = true \/ length (getFormula cell) = 0%nat ->
  truthy err = true ->
  evaluateExpression (pre ++ ref :: rest) (reset this)
  = (Throw "Invalid cell reference",
     {| _sheetMemory := _sheetMemory this;
        _errorMessage := err;
        _result := zero |}) /\
  error (after_evaluate (pre ++ ref :: rest) this) = invalidFormula ErrorMessages /\
  result (after_evaluate (pre ++ ref :: rest) this) = zero.
Proof.
  intros Hpre Hnum Hlabel Hcell stored err Hfails Herr.
  pose proof (quiet_scanTokens pre ([], []) (reset this)) as Q.
  rewrite Hpre in Q. subst this1.
  assert (Hvalue : getCellValue ref (reset this) = (Return (zero, err), reset this)).
  { unfold getCellValue, bind, callSheetMemory.
    change (_sheetMemory (reset this)) with (_sheetMemory this). rewrite Hcell.
    subst err. fold stored. destruct stored; [reflexivity |].
    destruct Hfails as [H | H]; [discriminate |]. rewrite H. reflexivity. }
  assert (Hthrow : evaluateExpression (pre ++ ref :: rest) (reset this)
                   = (Throw "Invalid cell reference",
                      {| _sheetMemory := _sheetMemory this;
                         _errorMessage := err;
                         _result := zero |})).
  { unfold evaluateExpression, reduceTokens. unfold bind at 1 2.
    rewrite scanTokens_app. unfold bind at 1. rewrite Hpre.
    rewrite scanTokens_cons. unfold bind at 1.
    unfold scanToken. destruct stacks as [values operators].
    rewrite Hnum, Hlabel. unfold bind at 1. rewrite Hvalue.
    cbv iota beta. rewrite Herr. reflexivity. }
  split; [exact Hthrow |].
  destruct (after_evaluate_cases (pre ++ ref :: rest) this) as (_ & _ & Hcases).
  rewrite Hthrow in Hcases.
  destruct (pre ++ ref :: rest) eqn:E; [| exact Hcases].
  destruct pre; discriminate.
Qed.

(** ** Classification of tokens *)

(** C9 (amended): the number classifier accepts a token exactly when
    [Number(token)] is not NaN.  Every token that parses as a finite value is
    accepted, and the value pushed for an accepted token is [Number(token)],
    which is never NaN but may be an infinity. *)
Theorem isNumber_iff_not_NaN (token : string) :
  (isNumber token = true <-> isNaN (Number token) = false) /\
  (isFinite (Number token) = true -> isNumber token = true) /\
  (isNumber token = true ->
   isNaN (Number token) = false /\
   forall values operators this,
     scanToken token (values, operators) this
     = (Return (Number token :: values, operators), this)).
Proof.
  assert (Hiff : isNumber token = true <-> isNaN (Number token) = false).
  { unfold isNumber. apply negb_true_iff. }
  split; [exact Hiff |]. split.
  - intros Hfin. apply Hiff. destruct (Number token); [reflexivity.. | discriminate | reflexivity].
  - intros Hnum. split; [apply Hiff, Hnum |].
    intros values operators this. apply scanToken_number, Hnum.
Qed.

(** C10: a token that is neither a number, nor a valid cell label, nor a
    parenthesis, nor an operator leaves both stacks and the instance as they
    were, and no error is recorded for it: [evaluate] behaves as if the token
    were absent whenever another token remains, so a number followed by such
    a token evaluates to that number with no error. *)
Theorem unrecognized_token_skipped (token : string) :
  unrecognized isValidCellLabel token = true ->
  (forall stacks this, scanToken token stacks this = (Return stacks, this)) /\
  (forall pre post this,
      pre ++ post <> [] ->
      evaluate (pre ++ token :: post) this = evaluate (pre ++ post) this) /\
  (forall n this,
      isNumber n = true ->
      error (after_evaluate [n; token] this) = "" /\
      result (after_evaluate [n; token] this) = orZero (Some (Number n))).
Proof.
  intros Hskip.
  assert (Hscan : forall pre post stacks this,
             scanTokens (pre ++ token :: post) stacks this
             = scanTokens (pre ++ post) stacks this).
  { intros pre post stacks this. rewrite !scanTokens_app. unfold bind.
    destruct (scanTokens pre stacks this) as [[stacks' | msg] this']; [| reflexivity].
    rewrite scanTokens_cons. unfold bind.
    rewrite (scanToken_unrecognized _ _ _ Hskip). reflexivity. }
  assert (Hexpr : forall pre post this,
             evaluateExpression (pre ++ token :: post) this
             = evaluateExpression (pre ++ post) this).
  { intros pre post this. unfold evaluateExpression, reduceTokens, bind.
    rewrite Hscan. reflexivity. }
  assert (Heval : forall pre post this,
             pre ++ post <> [] ->
             evaluate (pre ++ token :: post) this = evaluate (pre ++ post) this).
  { intros pre post this Hne.
    rewrite (evaluate_nonempty (pre ++ token :: post)) by (destruct pre; discriminate).
    rewrite (evaluate_nonempty (pre ++ post)) by exact Hne.
    unfold try_catch, bind. rewrite Hexpr. reflexivity. }
  split; [intros; apply scanToken_unrecognized, Hskip |].
  split; [exact Heval |].
  intros n this Hn. unfold after_evaluate.
  rewrite (Heval [n] [] this ltac:(discriminate)
           : evaluate [n; token] this = evaluate [n] this).
  destruct (after_evaluate_cases [n] this) as (_ & _ & Hcases).
  unfold after_evaluate in Hcases.
  assert (Hone : evaluateExpression [n] (reset this)
                 = (Return (orZero (Some (Number n))), reset this)).
  { unfold evaluateExpression, reduceTokens, bind.
    rewrite (scan_number n _ _ _ _ Hn). reflexivity. }
  rewrite Hone in Hcases. exact Hcases.
Qed.

(** ** What a caller can observe after [evaluate] *)

Lemma orZero_proper (o : option number) :
  isNaN (orZero o) = false /\ orZero o <> S754_zero true.
Proof.
  destruct o as [[s | s | | s m e] |]; cbn; split;
    first [reflexivity | discriminate].
Qed.

Lemma evaluateExpression_returns (tokens : list string)
    (this this' : FormulaEvaluator) (r : number) :
  evaluateExpression tokens this = (Return r, this') ->
  exists v, reduceTokens tokens this = (Return [v], this) /\
            this' = this /\ r = orZero (Some v).
Proof.
  intros H. pose proof (quiet_reduceTokens tokens this) as Q.
  unfold evaluateExpression, bind in H.
  destruct (reduceTokens tokens this) as [[values | msg] this1]; [| discriminate].
  subst this1. destruct values as [| v [| w values]]; cbn in H; try discriminate.
  injection H as <- <-. exists v. auto.
Qed.

(** X1: the error a caller can read is the empty string, EmptyFormula or
    InvalidFormula and no other: EmptyFormula for the empty formula, one of
    the other two for a formula with a token. *)
Theorem error_range (formula : list string) (this : FormulaEvaluator) :
  match formula with
  | [] => error (after_evaluate formula this) = emptyFormula ErrorMessages
  | _ :: _ =>
      error (after_evaluate formula this) = "" \/
      error (after_evaluate formula this) = invalidFormula ErrorMessages
  end.
Proof.
  destruct (after_evaluate_cases formula this) as (_ & _ & Hcases).
  destruct formula as [| token tokens]; [apply Hcases |].
  destruct (evaluateExpression (token :: tokens) (reset this)) as [[r | msg] this1];
    [left | right]; apply Hcases.
Qed.

(** X2: the result a caller can read is never NaN and never the negative
    zero: [values.pop() || 0] replaces both by 0. *)
Theorem result_never_NaN (formula : list string) (this : FormulaEvaluator) :
  isNaN (result (after_evaluate formula this)) = false /\
  result (after_evaluate formula this) <> S754_zero true.
Proof.
  destruct (after_evaluate_cases formula this) as (_ & _ & Hcases).
  destruct formula as [| token tokens].
  - destruct Hcases as [_ ->]. split; [reflexivity | discriminate].
  - destruct (evaluateExpression (token :: tokens) (reset this))
      as [[r | msg] this1] eqn:E.
    + destruct Hcases as [_ ->].
      destruct (evaluateExpression_returns _ _ _ _ E) as (v & _ & _ & ->).
      apply orZero_proper.
    + destruct Hcases as [_ ->]. split; [reflexivity | discriminate].
Qed.


(** X4: evaluation stops at the first token on which the scan throws: the
    tokens after it are never examined, so replacing them changes nothing,
    and the caller reads InvalidFormula with result 0. *)
Theorem tokens_after_failure_ignored (pre rest : list string) (msg : string)
    (this this1 : FormulaEvaluator) :
  scanTokens pre ([], []) (reset this) = (Throw msg, this1) ->
  evaluate (pre ++ rest) this = evaluate pre this /\
  error (after_evaluate (pre ++ rest) this) = invalidFormula ErrorMessages /\
  result (after_evaluate (pre ++ rest) this) = zero.
Proof.
  intros Hpre.
  assert (Hthrow : forall rest',
             evaluateExpression (pre ++ rest') (reset this) = (Throw msg, this1)).
  { intros rest'. unfold evaluateExpression, reduceTokens, bind.
    rewrite scanTokens_app. unfold bind. rewrite Hpre. reflexivity. }
  destruct pre as [| token pre]; [discriminate Hpre |].
  pose proof (Hthrow rest) as Hrest. pose proof (Hthrow []) as Hnil.
  rewrite app_nil_r in Hnil. cbn [app] in Hrest |- *.
  split.
  - rewrite (evaluate_throws _ _ _ _ _ Hrest), (evaluate_throws _ _ _ _ _ Hnil).
    reflexivity.
  - destruct (after_evaluate_cases (token :: pre ++ rest) this) as (_ & _ & Hcases).
    rewrite Hrest in Hcases. exact Hcases.
Qed.

(** ** References to healthy cells *)

Lemma getCellValue_healthy (ref : string) (cell : Cell) (this : FormulaEvaluator) :
  getCellByLabel (_sheetMemory this) ref = Return cell ->
  healthy cell = true ->
  getCellValue ref this = (Return (getValue cell, ""), this).
Proof.
  intros Hcell Hok. unfold healthy in Hok.
  apply andb_prop in Hok. destruct Hok as [Herr Hlen].
  apply negb_true_iff in Herr. apply negb_true_iff in Hlen.
  unfold getCellValue, bind, callSheetMemory. rewrite Hcell, Herr, Hlen.
  reflexivity.
Qed.

Lemma scanToken_sameOperand (t t' : string) (stacks : list number * list string)
    (this : FormulaEvaluator) :
  sameOperand (_sheetMemory this) t t' ->
  scanToken t stacks this = scanToken t' stacks this.
Proof.
  intros [-> | (Hnum & Hlabel & Hnum' & cell & Hcell & Hok & Hvalue)];
    [reflexivity |].
  destruct stacks as [values operators].
  rewrite (scanToken_number t' values operators this Hnum').
  unfold scanToken. rewrite Hnum, Hlabel. unfold bind.
  rewrite (getCellValue_healthy t cell this Hcell Hok), Hvalue. reflexivity.
Qed.

Lemma scanTokens_sameOperand (memory : SheetMemory) (tokens tokens' : list string) :
  Forall2 (sameOperand memory) tokens tokens' ->
  forall stacks this,
    _sheetMemory this = memory ->
    scanTokens tokens stacks this = scanTokens tokens' stacks this.
Proof.
  induction 1 as [| t t' tokens tokens' Hhead _ IH]; intros stacks this Hmem.
  - reflexivity.
  - rewrite !scanTokens_cons. unfold bind.
    rewrite <- Hmem in Hhead. rewrite (scanToken_sameOperand t t' stacks this Hhead).
    pose proof (quiet_scanToken t' stacks this) as Q.
    destruct (scanToken t' stacks this) as [[stacks' | msg] this']; [| reflexivity].
    subst this'. apply IH, Hmem.
Qed.

(** X5: a reference to a healthy cell is worth the literal of its cached
    value.  When every token of one formula is the token of another at the
    same place, or a reference to a healthy cell where the other has a
    number literal equal to the cell's cached value, [evaluate] ends in the
    same state on both. *)
Theorem reference_as_literal (tokens tokens' : list string)
    (this : FormulaEvaluator) :
  Forall2 (sameOperand (_sheetMemory this)) tokens tokens' ->
  evaluate tokens this = evaluate tokens' this.
Proof.
  intros Hsame.
  assert (Hexpr : evaluateExpression tokens (reset this)
                  = evaluateExpression tokens' (reset this)).
  { unfold evaluateExpression, reduceTokens, bind.
    rewrite (scanTokens_sameOperand _ _ _ Hsame ([], []) (reset this) eq_refl).
    reflexivity. }
  destruct Hsame as [| t t' tokens tokens' _ _]; [reflexivity |].
  rewrite (evaluate_nonempty (t :: tokens)), (evaluate_nonempty (t' :: tokens'))
    by discriminate.
  unfold try_catch, bind. rewrite Hexpr. reflexivity.
Qed.

(** ** The operator stack *)

Lemma closeParenLoop_suffix (operators : list string) :
  forall values this operators' values' this',
    closeParenLoop operators values this = (Return (operators', values'), this') ->
    exists popped, operators = popped ++ operators'.
Proof.
  induction operators as [| top operators IH];
    intros values this operators' values' this' H; cbn in H.
  - injection H as <- _ _. exists []. reflexivity.
  - destruct (negb (String.eqb top "(")).
    + unfold bind in H.
      destruct (applyOperator top values this) as [[values1 | msg] this1];
        [| discriminate].
      destruct (IH _ _ _ _ _ H) as [popped ->]. exists (top :: popped). reflexivity.
    + injection H as <- _ _. exists []. reflexivity.
Qed.

Lemma precedenceLoop_suffix (token : string) (operators : list string) :
  forall values this operators' values' this',
    precedenceLoop token operators values this
    = (Return (operators', values'), this') ->
    exists popped, operators = popped ++ operators'.
Proof.
  induction operators as [| top operators IH];
    intros values this operators' values' this' H; cbn in H.
  - injection H as <- _ _. exists []. reflexivity.
  - destruct (_ <=? _)%nat.
    + unfold bind in H.
      destruct (applyOperator top values this) as [[values1 | msg] this1];
        [| discriminate].
      destruct (IH _ _ _ _ _ H) as [popped ->]. exists (top :: popped). reflexivity.
    + injection H as <- _ _. exists []. reflexivity.
Qed.

Lemma scanToken_stackSymbols (token : string) (values values' : list number)
    (operators operators' : list string) (this this' : FormulaEvaluator) :
  scanToken token (values, operators) this = (Return (values', operators'), this') ->
  forallb stackSymbol operators = true ->
  forallb stackSymbol operators' = true.
Proof.
  unfold scanToken. intros H Hops.
  destruct (isNumber token); [injection H as _ <- _; exact Hops |].
  destruct (isCellReference isValidCellLabel token).
  { unfold bind in H.
    destruct (getCellValue token this) as [[[value err] | msg] this1]; [| discriminate].
    destruct (truthy err); [discriminate |]. injection H as _ <- _. exact Hops. }
  destruct (String.eqb token "(") eqn:Eopen.
  { injection H as _ <- _. cbn. unfold stackSymbol at 1. rewrite Eopen. exact Hops. }
  destruct (String.eqb token ")").
  { unfold bind in H.
    destruct (closeParenLoop operators values this) as [[[ops1 vals1] | msg] this1] eqn:E;
      [| discriminate].
    injection H as _ <- _.
    destruct (closeParenLoop_suffix _ _ _ _ _ _ E) as [popped ->].
    rewrite forallb_app in Hops. apply andb_prop in Hops. destruct Hops as [_ Hops].
    destruct ops1 as [| top ops1]; [reflexivity |].
    cbn in Hops |- *. apply andb_prop in Hops. apply Hops. }
  destruct (isOperator token) eqn:Eop; [| injection H as _ <- _; exact Hops].
  unfold bind in H.
  destruct (precedenceLoop token operators values this) as [[[ops1 vals1] | msg] this1] eqn:E;
    [| discriminate].
  injection H as _ <- _.
  destruct (precedenceLoop_suffix _ _ _ _ _ _ _ E) as [popped ->].
  rewrite forallb_app in Hops. apply andb_prop in Hops. destruct Hops as [_ Hops].
  cbn. unfold stackSymbol at 1. rewrite Eop, orb_true_r. exact Hops.
Qed.

(** X6: the operator stack only ever holds opening parentheses and the four
    operators, whatever the tokens are: a scan that completes from a stack
    of such symbols ends on a stack of such symbols.  The InvalidOperator
    branch of [applyOperator] can thus only be reached by an opening
    parenthesis that was never closed. *)
Theorem operators_stack_symbols (tokens : list string) :
  forall (values values' : list number) (operators operators' : list string)
         (this this' : FormulaEvaluator),
    scanTokens tokens (values, operators) this
    = (Return (values', operators'), this') ->
    forallb stackSymbol operators = true ->
    forallb stackSymbol operators' = true.
Proof.
  induction tokens as [| token tokens IH];
    intros values values' operators operators' this this' H Hops.
  - injection H as _ <- _. exact Hops.
  - rewrite scanTokens_cons in H. unfold bind in H.
    destruct (scanToken token (values, operators) this)
      as [[[values1 operators1] | msg] this1] eqn:E; [| discriminate].
    apply (IH _ _ _ _ _ _ H).
    apply (scanToken_stackSymbols _ _ _ _ _ _ _ E Hops).
Qed.

End EvaluatorFacts.

(** * The document name in the URL *)

Section DocumentName.

Import JSString.
Local Open Scope Z_scope.

Lemma indexOfFrom_missing (c : ascii) (l : list ascii) :
  ~ In c l -> forall k, indexOfFrom [c] l k = -1.
Proof.
  induction l as [| d l IH]; intros Hnot k; cbn.
  - reflexivity.
  - destruct (Ascii.eqb_spec c d) as [-> | _].
    + destruct Hnot. left. reflexivity.
    + cbn. apply IH. intros H. apply Hnot. right. exact H.
Qed.

Lemma indexOfFrom_found (c : ascii) (a b : list ascii) :
  ~ In c a ->
  forall k, indexOfFrom [c] (a ++ c :: b) k = k + Z.of_nat (length a).
Proof.
  induction a as [| d a IH]; intros Hnot k.
  - cbn. rewrite Ascii.eqb_refl. cbn. lia.
  - cbn [app indexOfFrom startsWith].
    destruct (Ascii.eqb_spec c d) as [-> | _].
    + destruct Hnot. left. reflexivity.
    + cbn [andb]. rewrite IH by (intros H; apply Hnot; right; exact H).
      cbn [length]. lia.
Qed.

Lemma indexOfFrom_double (c : ascii) (a b : list ascii) :
  ~ In c a ->
  forall k, indexOfFrom [c; c] (a ++ c :: c :: b) k = k + Z.of_nat (length a).
Proof.
  induction a as [| d a IH]; intros Hnot k.
  - cbn. rewrite Ascii.eqb_refl. cbn. lia.
  - cbn [app indexOfFrom startsWith].
    destruct (Ascii.eqb_spec c d) as [-> | _].
    + destruct Hnot. left. reflexivity.
    + cbn [andb]. rewrite IH by (intros H; apply Hnot; right; exact H).
      cbn [length]. lia.
Qed.

(** The first occurrence of a code unit: either there is none, or the string
    splits around it. *)
Lemma indexOfFrom_split (c : ascii) (l : list ascii) :
  forall k,
    (~ In c l /\ indexOfFrom [c] l k = -1) \/
    (exists a b,
        l = a ++ c :: b /\ ~ In c a /\
        indexOfFrom [c] l k = k + Z.of_nat (length a)).
Proof.
  induction l as [| d l IH]; intros k.
  - left. split; [intros [] | reflexivity].
  - destruct (Ascii.eqb_spec c d) as [<- | Hne].
    + right. exists [], l. split; [reflexivity |]. split; [intros [] |].
      cbn. rewrite Ascii.eqb_refl. cbn. lia.
    + destruct (IH (k + 1)) as [[Hnot Hr] | (a & b & -> & Hnot & Hr)].
      * left. split.
        -- intros [H | H]; [apply Hne; symmetry; exact H | exact (Hnot H)].
        -- apply indexOfFrom_missing.
           intros [H | H]; [apply Hne; symmetry; exact H | exact (Hnot H)].
      * right. exists (d :: a), b. split; [reflexivity |]. split.
        -- intros [H | H]; [apply Hne; symmetry; exact H | exact (Hnot H)].
        -- apply (indexOfFrom_found c (d :: a) b).
           intros [H | H]; [apply Hne; symmetry; exact H | exact (Hnot H)].
Qed.

Lemma lastIndexOfFrom_missing (c : ascii) (l : list ascii) :
  ~ In c l -> forall k found, lastIndexOfFrom [c] l k found = found.
Proof.
  induction l as [| d l IH]; intros Hnot k found; cbn.
  - reflexivity.
  - destruct (Ascii.eqb_spec c d) as [-> | _].
    + destruct Hnot. left. reflexivity.
    + cbn. apply IH. intros H. apply Hnot. right. exact H.
Qed.

Lemma lastIndexOfFrom_found (c : ascii) (a b : list ascii) :
  ~ In c b ->
  forall k found,
    lastIndexOfFrom [c] (a ++ c :: b) k found = k + Z.of_nat (length a).
Proof.
  intros Hnot. induction a as [| d a IH]; intros k found.
  - cbn. rewrite Ascii.eqb_refl. cbn.
    rewrite (lastIndexOfFrom_missing c b Hnot). lia.
  - cbn [app lastIndexOfFrom]. rewrite IH. cbn [length]. lia.
Qed.

Lemma in_firstn (n : nat) (l : list ascii) (c : ascii) :
  In c (firstn n l) -> In c l.
Proof.
  intros H. rewrite <- (firstn_skipn n l). apply in_or_app. left. exact H.
Qed.

Lemma skipn_prefix (pre l : list ascii) (n : Z) :
  n = Z.of_nat (length pre) ->
  skipn (Z.to_nat n) (pre ++ l) = l.
Proof.
  intros ->. rewrite Nat2Z.id, skipn_app, skipn_all, Nat.sub_diag. reflexivity.
Qed.

Lemma clamp_inside (n len : Z) : 0 <= n <= len -> clamp n len = n.
Proof. unfold clamp. lia. Qed.

Lemma clamp_bounds (n len : Z) : 0 <= len -> 0 <= clamp n len <= len.
Proof. unfold clamp. lia. Qed.

Lemma indexOf_after (pre l search : list ascii) (n : Z) :
  n = Z.of_nat (length pre) ->
  indexOf (pre ++ l) search n = indexOfFrom search l n.
Proof.
  intros Hn. unfold indexOf.
  rewrite clamp_inside by (rewrite length_app; lia).
  rewrite (skipn_prefix pre l n Hn). reflexivity.
Qed.

Lemma indexOf_zero (s search : list ascii) :
  indexOf s search 0 = indexOfFrom search s 0.
Proof. exact (indexOf_after [] s search 0 eq_refl). Qed.

Lemma substring_middle (pre mid post : list ascii) (a b : Z) :
  a = Z.of_nat (length pre) ->
  b = a + Z.of_nat (length mid) ->
  substring (pre ++ mid ++ post) a b = mid.
Proof.
  intros Ha Hb. unfold substring.
  rewrite !clamp_inside by (rewrite !length_app; lia).
  rewrite Z.min_l, Z.max_r by lia.
  rewrite (skipn_prefix pre (mid ++ post) a Ha).
  replace (Z.to_nat (b - a)) with (length mid) by lia.
  rewrite firstn_app, firstn_all, Nat.sub_diag. cbn. apply app_nil_r.
Qed.

Lemma substringFrom_suffix (pre l : list ascii) (a : Z) :
  a = Z.of_nat (length pre) ->
  substringFrom (pre ++ l) a = l.
Proof.
  intros Ha. unfold substringFrom, substring.
  rewrite !clamp_inside by (rewrite ?length_app; lia).
  rewrite Z.min_l, Z.max_r by (rewrite length_app; lia).
  rewrite (skipn_prefix pre l a Ha).
  replace (Z.to_nat (Z.of_nat (length (pre ++ l)) - a)) with (length l)
    by (rewrite length_app; lia).
  apply firstn_all.
Qed.

(** The document name of a URL whose protocol, host and first path segment
    hold no slash. *)
Lemma documentName_of_url (proto host doc tail : list ascii) :
  ~ In slash proto ->
  ~ In slash host ->
  ~ In slash doc ->
  tail = [] \/ (exists rest, tail = slash :: rest) ->
  getDocumentNameFromWindow
    (proto ++ slash :: slash :: host ++ slash :: doc ++ tail)
  = doc.
Proof.
  intros Hproto Hhost Hdoc Htail.
  set (href := proto ++ slash :: slash :: host ++ slash :: doc ++ tail).
  set (pre1 := proto ++ [slash; slash]).
  set (pre2 := pre1 ++ host ++ [slash]).
  assert (H1 : href = pre1 ++ host ++ slash :: doc ++ tail).
  { unfold href, pre1. rewrite <- app_assoc. reflexivity. }
  assert (H2 : href = pre2 ++ doc ++ tail).
  { rewrite H1. unfold pre2. rewrite <- !app_assoc. reflexivity. }
  assert (Hlen1 : Z.of_nat (length proto) + 2 = Z.of_nat (length pre1)).
  { unfold pre1. rewrite length_app. cbn. lia. }
  assert (Hlen2 : Z.of_nat (length pre1) + Z.of_nat (length host) + 1
                  = Z.of_nat (length pre2)).
  { unfold pre2. rewrite !length_app. cbn. lia. }
  assert (HprotoEnd : indexOf href [slash; slash] 0 = Z.of_nat (length proto)).
  { rewrite indexOf_zero.
    unfold href. rewrite indexOfFrom_double by exact Hproto. lia. }
  assert (HpathStart : indexOf href [slash] (Z.of_nat (length proto) + 2)
                       = Z.of_nat (length pre1) + Z.of_nat (length host)).
  { rewrite H1, (indexOf_after pre1 _ _ _ Hlen1).
    rewrite indexOfFrom_found by exact Hhost. lia. }
  assert (HdocEnd : indexOf href [slash]
                      (Z.of_nat (length pre1) + Z.of_nat (length host) + 1)
                    = indexOfFrom [slash] (doc ++ tail) (Z.of_nat (length pre2))).
  { rewrite H2, (indexOf_after pre2 _ _ _ Hlen2), Hlen2. reflexivity. }
  unfold getDocumentNameFromWindow. cbv zeta. fold href.
  rewrite HprotoEnd, HpathStart, HdocEnd.
  destruct (Z.ltb_spec (Z.of_nat (length pre1) + Z.of_nat (length host)) 0)
    as [Hneg | _]; [lia |].
  destruct Htail as [-> | [rest ->]].
  - rewrite app_nil_r, (indexOfFrom_missing slash doc Hdoc). cbn [Z.ltb Z.compare].
    rewrite H2, app_nil_r. apply substringFrom_suffix, Hlen2.
  - rewrite (indexOfFrom_found slash doc rest Hdoc).
    destruct (Z.ltb_spec (Z.of_nat (length pre2) + Z.of_nat (length doc)) 0)
      as [Hneg | _]; [lia |].
    rewrite H2. apply substring_middle; [exact Hlen2 | lia].
Qed.

(** X11: on a URL made of a protocol, [//], a host, [/] and a document name,
    none of the three holding a slash, the function returns the document
    name, whether the URL stops there or goes on with [/] and anything. *)
Theorem getDocumentName_of_url (proto host doc : list ascii) :
  ~ In slash proto ->
  ~ In slash host ->
  ~ In slash doc ->
  getDocumentNameFromWindow (proto ++ slash :: slash :: host ++ slash :: doc)
  = doc /\
  forall rest : list ascii,
    getDocumentNameFromWindow
      (proto ++ slash :: slash :: host ++ slash :: doc ++ slash :: rest)
    = doc.
Proof.
  intros Hproto Hhost Hdoc. split.
  - rewrite <- (app_nil_r doc) at 1.
    apply documentName_of_url; auto.
  - intros rest. apply documentName_of_url; auto.
    right. exists rest. reflexivity.
Qed.

Lemma documentName_without_path (proto host : list ascii) :
  ~ In slash proto ->
  ~ In slash host ->
  getDocumentNameFromWindow (proto ++ slash :: slash :: host) = [].
Proof.
  intros Hproto Hhost.
  set (href := proto ++ slash :: slash :: host).
  assert (HprotoEnd : indexOf href [slash; slash] 0 = Z.of_nat (length proto)).
  { rewrite indexOf_zero.
    unfold href. rewrite indexOfFrom_double by exact Hproto. lia. }
  assert (HpathStart : indexOf href [slash] (Z.of_nat (length proto) + 2) = -1).
  { replace href with ((proto ++ [slash; slash]) ++ host)
      by (unfold href; rewrite <- app_assoc; reflexivity).
    rewrite indexOf_after by (rewrite length_app; cbn; lia).
    apply indexOfFrom_missing, Hhost. }
  unfold getDocumentNameFromWindow. cbv zeta. fold href.
  rewrite HprotoEnd, HpathStart. reflexivity.
Qed.

(** X12: a URL without a slash after the [//] of the protocol has no
    document name: the function returns the empty string.  So does a URL
    without any slash. *)
Theorem getDocumentName_without_path :
  (forall proto host : list ascii,
      ~ In slash proto ->
      ~ In slash host ->
      getDocumentNameFromWindow (proto ++ slash :: slash :: host) = []) /\
  (forall href : list ascii,
      ~ In slash href -> getDocumentNameFromWindow href = []).
Proof.
  split.
  - intros proto host Hproto Hhost.
    apply documentName_without_path; assumption.
  - intros href Hnot. unfold getDocumentNameFromWindow.
    assert (Hpath : forall n, indexOf href [slash] n = -1).
    { intros n. unfold indexOf. apply indexOfFrom_missing.
      intros H. apply Hnot.
      rewrite <- (firstn_skipn (Z.to_nat (clamp n (Z.of_nat (length href)))) href).
      apply in_or_app. right. exact H. }
    rewrite Hpath. reflexivity.
Qed.

(** X13: whatever the URL, the document name returned holds no slash. *)
Theorem getDocumentName_has_no_slash (href : list ascii) :
  ~ In slash (getDocumentNameFromWindow href).
Proof.
  unfold getDocumentNameFromWindow.
  set (pathStart := indexOf href [slash] _).
  destruct (pathStart <? 0); [intros [] |].
  unfold indexOf.
  set (len := Z.of_nat (length href)).
  set (start := clamp (pathStart + 1) len).
  assert (Hstart : 0 <= start <= len) by (apply clamp_bounds; unfold len; lia).
  assert (Hlen : length (skipn (Z.to_nat start) href) = Z.to_nat (len - start)).
  { rewrite length_skipn. unfold len. lia. }
  destruct (indexOfFrom_split slash (skipn (Z.to_nat start) href) start)
    as [[Hnot ->] | (a & b & Hsplit & Hnot & ->)].
  - cbn [Z.ltb Z.compare]. unfold substringFrom, substring. fold len. fold start.
    intros H. apply Hnot. rewrite (clamp_inside len len) in H by lia.
    rewrite Z.min_l in H by lia.
    apply (in_firstn _ _ _ H).
  - destruct (Z.ltb_spec (start + Z.of_nat (length a)) 0) as [Hneg | _]; [lia |].
    unfold substring. fold len. fold start.
    assert (Hfit : start + Z.of_nat (length a) <= len).
    { rewrite Hsplit, length_app in Hlen. cbn [length] in Hlen. lia. }
    rewrite (clamp_inside (start + Z.of_nat (length a)) len) by lia.
    rewrite Z.min_l, Z.max_r by lia.
    rewrite Hsplit.
    replace (Z.to_nat (start + Z.of_nat (length a) - start)) with (length a) by lia.
    rewrite firstn_app, firstn_all, Nat.sub_diag. cbn. rewrite app_nil_r.
    exact Hnot.
Qed.

Lemma resetURL_last_slash (a b documentName : list ascii) :
  ~ In slash b ->
  resetURL (a ++ slash :: b) documentName = a ++ slash :: documentName.
Proof.
  intros Hb. unfold resetURL, lastIndexOf.
  rewrite (lastIndexOfFrom_found slash a b Hb).
  replace (a ++ slash :: b) with ([] ++ (a ++ [slash]) ++ b)
    by (cbn; rewrite <- app_assoc; reflexivity).
  rewrite (substring_middle [] (a ++ [slash]) b 0 (0 + Z.of_nat (length a) + 1))
    by (rewrite ?length_app; cbn; lia).
  rewrite <- app_assoc. reflexivity.
Qed.

(** X14: [resetURL] keeps the URL up to its last slash and puts the document
    name after it; on a URL without a slash nothing is kept. *)
Theorem resetURL_replaces_last_segment :
  (forall a b documentName : list ascii,
      ~ In slash b ->
      resetURL (a ++ slash :: b) documentName = a ++ slash :: documentName) /\
  (forall currentURL documentName : list ascii,
      ~ In slash currentURL ->
      resetURL currentURL documentName = documentName).
Proof.
  split.
  - intros a b documentName Hb. apply resetURL_last_slash, Hb.
  - intros currentURL documentName Hnot. unfold resetURL, lastIndexOf.
    rewrite (lastIndexOfFrom_missing slash currentURL Hnot).
    unfold substring. change (-1 + 1) with 0.
    rewrite clamp_inside by lia.
    rewrite Z.min_id, Z.max_id, Z.sub_diag. reflexivity.
Qed.

(** X15: the round trip.  On a URL whose path is a single segment, the URL
    that [resetURL] builds for a document name without slash is read back by
    [getDocumentNameFromWindow] as that name. *)
Theorem getDocumentName_after_resetURL (proto host old documentName : list ascii) :
  ~ In slash proto ->
  ~ In slash host ->
  ~ In slash old ->
  ~ In slash documentName ->
  getDocumentNameFromWindow
    (resetURL (proto ++ slash :: slash :: host ++ slash :: old) documentName)
  = documentName.
Proof.
  intros Hproto Hhost Hold Hname.
  replace (proto ++ slash :: slash :: host ++ slash :: old)
    with ((proto ++ slash :: slash :: host) ++ slash :: old)
    by (rewrite <- app_assoc; reflexivity).
  rewrite (resetURL_last_slash _ _ _ Hold).
  rewrite <- app_assoc. cbn [app].
  rewrite <- (app_nil_r documentName) at 1.
  apply documentName_of_url; auto.
Qed.

(** X16: the round trip fails on a URL without path.  With no slash after the
    host, the last slash is the second one of the protocol: [resetURL] puts
    the document name in place of the host, and the URL it builds has no
    document name. *)
Theorem resetURL_without_path (proto host documentName : list ascii) :
  ~ In slash host ->
  ~ In slash proto ->
  ~ In slash documentName ->
  resetURL (proto ++ slash :: slash :: host) documentName
  = proto ++ slash :: slash :: documentName /\
  getDocumentNameFromWindow
    (resetURL (proto ++ slash :: slash :: host) documentName)
  = [].
Proof.
  intros Hhost Hproto Hname.
  assert (Hreset : resetURL (proto ++ slash :: slash :: host) documentName
                   = proto ++ slash :: slash :: documentName).
  { replace (proto ++ slash :: slash :: host)
      with ((proto ++ [slash]) ++ slash :: host)
      by (rewrite <- app_assoc; reflexivity).
    rewrite (resetURL_last_slash _ _ _ Hhost).
    rewrite <- app_assoc. reflexivity. }
  split; [exact Hreset |].
  rewrite Hreset. apply documentName_without_path; assumption.
Qed.

End DocumentName.

(** * The properties on the example sheet *)

Lemma run_eq (formula : list string) (e : string) (r : number) :
  error (after_evaluate specErrorMessages specIsValidCellLabel formula
           (constructor exampleMemory)) = e /\
  result (after_evaluate specErrorMessages specIsValidCellLabel formula
            (constructor exampleMemory)) = r ->
  run formula = (e, r).
Proof. intros [He Hr]. unfold run. rewrite He, Hr. reflexivity. Qed.

(** ( 2 + 3 ) * 4 on the example sheet: 20 and no error. *)
Lemma evaluate_infix_formula_witness :
  symbolsAreNotLabels specIsValidCellLabel /\
  literalsE formula_paren_2_plus_3_times_4 = true /\
  evalE formula_paren_2_plus_3_times_4 = Some (ofZ 20) /\
  run ["("; "2"; "+"; "3"; ")"; "*"; "4"] = ("", ofZ 20).
Proof.
  split; [reflexivity |]. split; [reflexivity |]. split; [reflexivity |].
  apply run_eq.
  destruct (proj1 (evaluate_infix_formula specErrorMessages specIsValidCellLabel
                     eq_refl)
              formula_paren_2_plus_3_times_4 (ofZ 20) (constructor exampleMemory)
              eq_refl eq_refl) as (Herr & Hres & _).
  split; [exact Herr | exact Hres].
Defined.

(** C1 as stated fails on two well-formed arithmetic formulas: 5 / 0 records
    an error, and Infinity - Infinity, whose standard value is NaN, yields
    the result 0 with no error. *)
Lemma evaluate_infix_formula_counterexample :
  symbolsAreNotLabels specIsValidCellLabel /\
  (literalsE formula_5_div_0 = true /\
   tokensE formula_5_div_0 = ["5"; "/"; "0"] /\
   run ["5"; "/"; "0"] = ("InvalidFormula", zero) /\
   "InvalidFormula" <> "") /\
  (literalsE formula_Infinity_minus_Infinity = true /\
   tokensE formula_Infinity_minus_Infinity = ["Infinity"; "-"; "Infinity"] /\
   evalE formula_Infinity_minus_Infinity = Some NaN /\
   run ["Infinity"; "-"; "Infinity"] = ("", zero) /\
   zero <> NaN).
Proof. vm_compute. repeat split; discriminate. Qed.

(** 5 / 0 on the example sheet: the caller reads InvalidFormula, which is
    not the DivideByZero message. *)
Lemma divide_by_zero_witness :
  symbolsAreNotLabels specIsValidCellLabel /\
  literalsE formula_5_div_0 = true /\
  evalE formula_5_div_0 = None /\
  run ["5"; "/"; "0"] = (invalidFormula specErrorMessages, zero) /\
  invalidFormula specErrorMessages <> divideByZero specErrorMessages.
Proof.
  do 3 (split; [reflexivity |]). split; [| discriminate].
  apply run_eq.
  apply (divide_by_zero_reports_invalidFormula specErrorMessages
           specIsValidCellLabel eq_refl formula_5_div_0
           (constructor exampleMemory));
    reflexivity.
Defined.

(** [A2] holds the stored error DivideByZero and [A3] has an empty formula:
    a formula that refers to either reads InvalidFormula, neither the stored
    error nor InvalidCell. *)
Lemma failing_reference_witness :
  (getCellByLabel exampleMemory "A2"
   = Return {| getFormula := ["1"; "/"; "0"];
               getError := "DivideByZero";
               getValue := zero |} /\
   run ["1"; "+"; "A2"; "+"; "1"] = (invalidFormula specErrorMessages, zero) /\
   invalidFormula specErrorMessages <> "DivideByZero") /\
  (getCellByLabel exampleMemory "A3"
   = Return {| getFormula := []; getError := "EmptyFormula"; getValue := zero |} /\
   run ["A3"] = (invalidFormula specErrorMessages, zero) /\
   invalidFormula specErrorMessages <> invalidCell specErrorMessages).
Proof.
  split; (split; [reflexivity | split; [| discriminate]]); apply run_eq.
  - apply (failing_reference_reports_invalidFormula specErrorMessages
             specIsValidCellLabel ["1"; "+"] ["+"; "1"] "A2"
             {| getFormula := ["1"; "/"; "0"];
                getError := "DivideByZero";
                getValue := zero |}
             ([ofZ 1], ["+"])
             (constructor exampleMemory) (constructor exampleMemory));
      first [reflexivity | left; reflexivity].
  - apply (failing_reference_reports_invalidFormula specErrorMessages
             specIsValidCellLabel [] [] "A3"
             {| getFormula := []; getError := "EmptyFormula"; getValue := zero |}
             ([], [])
             (constructor exampleMemory) (constructor exampleMemory));
      first [reflexivity | right; reflexivity].
Defined.

(** Two numbers and no operator. *)
Lemma leftover_values_witness :
  ["2"; "3"] <> [] /\
  reduceTokens specErrorMessages specIsValidCellLabel ["2"; "3"]
    (reset (constructor exampleMemory))
  = (Return [ofZ 3; ofZ 2], constructor exampleMemory) /\
  length [ofZ 3; ofZ 2] <> 1%nat /\
  run ["2"; "3"] = (invalidFormula specErrorMessages, zero).
Proof.
  split; [discriminate |]. split; [reflexivity |]. split; [discriminate |].
  apply run_eq.
  apply (leftover_values_invalidFormula specErrorMessages specIsValidCellLabel
           ["2"; "3"] (constructor exampleMemory) (constructor exampleMemory)
           [ofZ 3; ofZ 2]); [discriminate | reflexivity | discriminate].
Defined.

(** An unbalanced formula: the error is set, so the result is 0. *)
Lemma error_implies_sentinel_witness :
  error (after_evaluate specErrorMessages specIsValidCellLabel ["("; "2"]
           (constructor exampleMemory)) <> "" /\
  result (after_evaluate specErrorMessages specIsValidCellLabel ["("; "2"]
            (constructor exampleMemory)) = zero.
Proof.
  split; [vm_compute; discriminate |].
  apply error_implies_sentinel. vm_compute. discriminate.
Defined.

(** C9 as stated fails on the token Infinity: the classifier accepts it and
    the value pushed is not finite.  The same holds for 1e999. *)
Lemma isNumber_accepts_Infinity :
  (isNumber "Infinity" = true /\
   isFinite (Number "Infinity") = false /\
   scanToken specErrorMessages specIsValidCellLabel "Infinity" ([], [])
     (constructor exampleMemory)
   = (Return ([Infinity], []), constructor exampleMemory)) /\
  (isNumber "1e999" = true /\ isFinite (Number "1e999") = false).
Proof. vm_compute. repeat split. Qed.

(** The token 2 is finite, hence accepted, and 2 is pushed. *)
Lemma isNumber_iff_not_NaN_witness :
  isFinite (Number "2") = true /\
  isNumber "2" = true /\
  scanToken specErrorMessages specIsValidCellLabel "2" ([], [])
    (constructor exampleMemory)
  = (Return ([ofZ 2], []), constructor exampleMemory).
Proof.
  destruct (isNumber_iff_not_NaN specErrorMessages specIsValidCellLabel "2")
    as (_ & Hfinite & Hpush).
  split; [reflexivity |].
  split; [apply Hfinite; reflexivity |].
  apply (proj2 (Hpush (Hfinite eq_refl))).
Defined.

(** The formula 2 $ evaluates to 2 with no error. *)
Lemma unrecognized_token_witness :
  unrecognized specIsValidCellLabel "$" = true /\
  isNumber "2" = true /\
  run ["2"; "$"] = ("", ofZ 2).
Proof.
  split; [reflexivity |]. split; [reflexivity |].
  apply run_eq.
  apply (proj2 (proj2 (unrecognized_token_skipped specErrorMessages
                         specIsValidCellLabel "$" eq_refl))
           "2" (constructor exampleMemory) eq_refl).
Defined.

(** * The further properties on examples *)


(** The lookup of [B9] throws: what follows the reference is not read. *)
Lemma tokens_after_failure_witness :
  scanTokens specErrorMessages specIsValidCellLabel ["1"; "+"; "B9"] ([], [])
    (reset (constructor exampleMemory))
  = (Throw "no such cell", constructor exampleMemory) /\
  run ["1"; "+"; "B9"; "+"; "2"] = (invalidFormula specErrorMessages, zero).
Proof.
  split; [reflexivity |]. apply run_eq.
  apply (tokens_after_failure_ignored specErrorMessages specIsValidCellLabel
           ["1"; "+"; "B9"] ["+"; "2"] "no such cell"
           (constructor exampleMemory) (constructor exampleMemory) eq_refl).
Defined.

(** [A1] holds 7: A1 + 1 evaluates as 7 + 1. *)
Lemma reference_as_literal_witness :
  Forall2 (sameOperand specErrorMessages specIsValidCellLabel exampleMemory)
    ["A1"; "+"; "1"] ["7"; "+"; "1"] /\
  evaluate specErrorMessages specIsValidCellLabel ["A1"; "+"; "1"]
    (constructor exampleMemory)
  = evaluate specErrorMessages specIsValidCellLabel ["7"; "+"; "1"]
      (constructor exampleMemory).
Proof.
  assert (H : Forall2 (sameOperand specErrorMessages specIsValidCellLabel
                         exampleMemory)
                ["A1"; "+"; "1"] ["7"; "+"; "1"]).
  { apply Forall2_cons;
      [| apply Forall2_cons;
         [left; reflexivity
         | apply Forall2_cons; [left; reflexivity | apply Forall2_nil]]].
    right. do 3 (split; [reflexivity |]).
    exists {| getFormula := ["7"]; getError := ""; getValue := ofZ 7 |}.
    repeat split; reflexivity. }
  split; [exact H |].
  apply (reference_as_literal specErrorMessages specIsValidCellLabel
           ["A1"; "+"; "1"] ["7"; "+"; "1"] (constructor exampleMemory) H).
Defined.

(** After ( 2 + 3 * the stack holds [*], [+] and the parenthesis. *)
Lemma operators_stack_symbols_witness :
  scanTokens specErrorMessages specIsValidCellLabel ["("; "2"; "+"; "3"; "*"]
    ([], []) (constructor exampleMemory)
  = (Return ([ofZ 3; ofZ 2], ["*"; "+"; "("]), constructor exampleMemory) /\
  forallb stackSymbol [] = true /\
  forallb stackSymbol ["*"; "+"; "("] = true.
Proof.
  split; [reflexivity |]. split; [reflexivity |].
  apply (operators_stack_symbols specErrorMessages specIsValidCellLabel
           ["("; "2"; "+"; "3"; "*"] [] [ofZ 3; ofZ 2] [] ["*"; "+"; "("]
           (constructor exampleMemory) (constructor exampleMemory)
           eq_refl eq_refl).
Defined.

(** ( 2 + 3 * 4 *)
Lemma unclosed_parenthesis_witness :
  symbolsAreNotLabels specIsValidCellLabel /\
  literalsE formula_2_plus_3_times_4 = true /\
  evalE formula_2_plus_3_times_4 = Some (ofZ 14) /\
  run ["("; "2"; "+"; "3"; "*"; "4"] = (invalidFormula specErrorMessages, zero).
Proof.
  do 3 (split; [reflexivity |]). apply run_eq.
  apply (unclosed_parenthesis_invalidFormula specErrorMessages
           specIsValidCellLabel eq_refl formula_2_plus_3_times_4 (ofZ 14)
           (constructor exampleMemory) eq_refl eq_refl).
Defined.

(** ) 2 evaluates as 2, and 2 + 3 * 4 ) gives 14. *)
Lemma stray_close_parenthesis_witness :
  symbolsAreNotLabels specIsValidCellLabel /\
  evaluate specErrorMessages specIsValidCellLabel [")"; "2"]
    (constructor exampleMemory)
  = evaluate specErrorMessages specIsValidCellLabel ["2"]
      (constructor exampleMemory) /\
  run ["2"; "+"; "3"; "*"; "4"; ")"] = ("", ofZ 14).
Proof.
  split; [reflexivity |].
  destruct (stray_close_parenthesis_ignored specErrorMessages
              specIsValidCellLabel eq_refl) as [Hhead Htail].
  split.
  - apply (Hhead ["2"] (constructor exampleMemory)). discriminate.
  - apply run_eq.
    apply (Htail formula_2_plus_3_times_4 (ofZ 14) (constructor exampleMemory)
             eq_refl eq_refl).
Defined.

(** 2 + 3 * 4 - gives 0 and no error. *)
Lemma dangling_operator_witness :
  symbolsAreNotLabels specIsValidCellLabel /\
  literalsE formula_2_plus_3_times_4 = true /\
  evalE formula_2_plus_3_times_4 = Some (ofZ 14) /\
  run ["2"; "+"; "3"; "*"; "4"; "-"] = ("", zero).
Proof.
  do 3 (split; [reflexivity |]). apply run_eq.
  apply (dangling_operator_yields_zero specErrorMessages specIsValidCellLabel
           eq_refl formula_2_plus_3_times_4 Minus (ofZ 14)
           (constructor exampleMemory) eq_refl eq_refl).
Defined.

(** The two tokens - 3 give 0, where the single token -3 gives -3. *)
Lemma leading_sign_witness :
  symbolsAreNotLabels specIsValidCellLabel /\
  literalsT (lit "3") = true /\
  evalT (lit "3") = Some (ofZ 3) /\
  run ["-"; "3"] = ("", zero) /\
  run ["-3"] = ("", ofZ (-3)).
Proof.
  do 3 (split; [reflexivity |]). split; [| reflexivity]. apply run_eq.
  apply (leading_sign_yields_zero specErrorMessages specIsValidCellLabel
           eq_refl (lit "3") Minus (ofZ 3) (constructor exampleMemory)
           eq_refl eq_refl).
Defined.

Ltac no_slash :=
  let H := fresh "H" in
  intros H; cbv in H;
  repeat match type of H with
         | _ \/ _ => destruct H as [H | H]; [discriminate H |]
         end;
  exact H.

(** http://localhost:3000/doc1 and http://localhost:3000/doc1/x/y *)
Lemma getDocumentName_of_url_witness :
  ~ In slash (list_ascii_of_string "http:") /\
  ~ In slash (list_ascii_of_string "localhost:3000") /\
  ~ In slash (list_ascii_of_string "doc1") /\
  getDocumentNameFromWindow (list_ascii_of_string "http://localhost:3000/doc1")
  = list_ascii_of_string "doc1" /\
  getDocumentNameFromWindow
    (list_ascii_of_string "http://localhost:3000/doc1/x/y")
  = list_ascii_of_string "doc1".
Proof.
  split; [no_slash |]. split; [no_slash |]. split; [no_slash |].
  destruct (getDocumentName_of_url
              (list_ascii_of_string "http:")
              (list_ascii_of_string "localhost:3000")
              (list_ascii_of_string "doc1")
              ltac:(no_slash) ltac:(no_slash) ltac:(no_slash)) as [Hend Hmore].
  split; [exact Hend | exact (Hmore (list_ascii_of_string "x/y"))].
Defined.

(** http://localhost:3000 and the string localhost *)
Lemma getDocumentName_without_path_witness :
  ~ In slash (list_ascii_of_string "http:") /\
  ~ In slash (list_ascii_of_string "localhost:3000") /\
  ~ In slash (list_ascii_of_string "localhost") /\
  getDocumentNameFromWindow (list_ascii_of_string "http://localhost:3000") = [] /\
  getDocumentNameFromWindow (list_ascii_of_string "localhost") = [].
Proof.
  split; [no_slash |]. split; [no_slash |]. split; [no_slash |].
  destruct getDocumentName_without_path as [Hhost Hnone].
  split.
  - apply (Hhost (list_ascii_of_string "http:")
                 (list_ascii_of_string "localhost:3000"));
      no_slash.
  - apply Hnone. no_slash.
Defined.

(** http://localhost:3000/doc1 becomes http://localhost:3000/test *)
Lemma resetURL_replaces_last_segment_witness :
  ~ In slash (list_ascii_of_string "doc1") /\
  ~ In slash (list_ascii_of_string "localhost") /\
  resetURL (list_ascii_of_string "http://localhost:3000/doc1")
    (list_ascii_of_string "test")
  = list_ascii_of_string "http://localhost:3000/test" /\
  resetURL (list_ascii_of_string "localhost") (list_ascii_of_string "test")
  = list_ascii_of_string "test".
Proof.
  split; [no_slash |]. split; [no_slash |].
  destruct resetURL_replaces_last_segment as [Hlast Hnone].
  split.
  - apply (Hlast (list_ascii_of_string "http://localhost:3000")
                 (list_ascii_of_string "doc1") (list_ascii_of_string "test")).
    no_slash.
  - apply Hnone. no_slash.
Defined.

(** From http://localhost:3000/ to the document test and back. *)
Lemma getDocumentName_after_resetURL_witness :
  ~ In slash (list_ascii_of_string "http:") /\
  ~ In slash (list_ascii_of_string "localhost:3000") /\
  ~ In slash (list_ascii_of_string "") /\
  ~ In slash (list_ascii_of_string "test") /\
  getDocumentNameFromWindow
    (resetURL (list_ascii_of_string "http://localhost:3000/")
       (list_ascii_of_string "test"))
  = list_ascii_of_string "test".
Proof.
  split; [no_slash |]. split; [no_slash |]. split; [no_slash |].
  split; [no_slash |].
  apply (getDocumentName_after_resetURL
           (list_ascii_of_string "http:")
           (list_ascii_of_string "localhost:3000")
           (list_ascii_of_string "")
           (list_ascii_of_string "test"));
    no_slash.
Defined.

(** http://localhost:3000 becomes http://test *)
Lemma resetURL_without_path_witness :
  ~ In slash (list_ascii_of_string "localhost:3000") /\
  ~ In slash (list_ascii_of_string "http:") /\
  ~ In slash (list_ascii_of_string "test") /\
  resetURL (list_ascii_of_string "http://localhost:3000")
    (list_ascii_of_string "test")
  = list_ascii_of_string "http://test" /\
  getDocumentNameFromWindow
    (resetURL (list_ascii_of_string "http://localhost:3000")
       (list_ascii_of_string "test"))
  = [].
Proof.
  split; [no_slash |]. split; [no_slash |]. split; [no_slash |].
  apply (resetURL_without_path
           (list_ascii_of_string "http:")
           (list_ascii_of_string "localhost:3000")
           (list_ascii_of_string "test"));
    no_slash.
Defined.
